(** * odt2csv: the header tokenizer, the data-row formatter and the
      conversion driver of [src/odt2csv/__init__.py], with the exception
      classes of [src/odt2csv/exceptions.py].

    Python strings are modelled as lists of characters; a character is an
    [ascii], read as a code point below 256.  The file system is an explicit
    store threaded through a small state-and-exception monad. *)

From Stdlib Require Import Ascii String Numbers.DecimalString.
From Stdlib Require Import Bool Arith ZArith Lia List.
From Equations Require Import Equations.
Import ListNotations.

(* ===================================================================== *)
(** ** Python string primitives                                            *)
(* ===================================================================== *)

Module Py.

Definition str := list ascii.

(** String literals. *)
Definition lit (s : string) : str := list_ascii_of_string s.

Definition sp : ascii := " "%char.
Definition nl : ascii := "010"%char.

Definition str_eqb (a b : str) : bool :=
  if list_eq_dec ascii_dec a b then true else false.

(** [str.isspace] on one character, for code points below 256:
    TAB, LF, VT, FF, CR, FS, GS, RS, US, SPACE, NEL and NBSP. *)
Definition isspace (c : ascii) : bool :=
  let n := nat_of_ascii c in
  ((9 <=? n) && (n <=? 13)) || ((28 <=? n) && (n <=? 32))
  || (n =? 133) || (n =? 160).

(** [s.lstrip()] *)
Fixpoint lstrip (s : str) : str :=
  match s with
  | [] => []
  | c :: t => if isspace c then lstrip t else s
  end.

(** [s.rstrip()] *)
Fixpoint rstrip (s : str) : str :=
  match s with
  | [] => []
  | c :: t =>
      match rstrip t with
      | [] => if isspace c then [] else [c]
      | t' => c :: t'
      end
  end.

(** [s.strip()] *)
Definition strip (s : str) : str := rstrip (lstrip s).

(** [s.startswith(p)] *)
Fixpoint startswith (p s : str) : bool :=
  match p, s with
  | [], _ => true
  | _ :: _, [] => false
  | a :: p', b :: s' => Ascii.eqb a b && startswith p' s'
  end.

(** [s.__contains__(p)], that is [p in s] *)
Fixpoint contains (p s : str) : bool :=
  startswith p s ||
  match s with
  | [] => false
  | _ :: t => contains p t
  end.

(** [s.replace(old, new)] for a non-empty [old]: scan from the left; at a
    position where [old] starts, emit [new] and jump over [old]; otherwise
    copy one character.  [skip] counts the characters of a matched [old]
    still to be jumped over. *)
Fixpoint replace_from (old new : str) (skip : nat) (s : str) : str :=
  match s with
  | [] => []
  | c :: t =>
      match skip with
      | S k => replace_from old new k t
      | O =>
          if startswith old s
          then new ++ replace_from old new (length old - 1) t
          else c :: replace_from old new 0 t
      end
  end.

Definition replace (old new s : str) : str := replace_from old new 0 s.

(** [s.split(sep)] for a one-character separator: never the empty list. *)
Fixpoint split (sep : ascii) (s : str) : list str :=
  match s with
  | [] => [[]]
  | c :: t =>
      if Ascii.eqb c sep then [] :: split sep t
      else match split sep t with
           | [] => [[c]]
           | p :: ps => (c :: p) :: ps
           end
  end.

(** [s[:n]], [s[n:]] for [n >= 0], [s[-n:]] and [s[:-1]]. *)
Definition slice_to (n : nat) (s : str) : str := firstn n s.
Definition slice_from (n : nat) (s : str) : str := skipn n s.
Definition slice_last (n : nat) (s : str) : str := skipn (length s - n) s.
Definition drop_last (s : str) : str := removelast s.

(** [s.rfind(c)] for a one-character [c]: the highest index, or [-1]. *)
Fixpoint rfind_from (c : ascii) (i : Z) (found : Z) (s : str) : Z :=
  match s with
  | [] => found
  | a :: t => rfind_from c (i + 1) (if Ascii.eqb a c then i else found) t
  end.

Definition rfind (c : ascii) (s : str) : Z := rfind_from c 0 (-1) s.

(** [str(n)] for an [int]. *)
Definition str_of_int (z : Z) : str := lit (NilZero.string_of_int (Z.to_int z)).

End Py.

Import Py.

(* ===================================================================== *)
(** ** The pure helpers of [__init__.py]                                   *)
(* ===================================================================== *)

Definition two_spaces : str := [sp; sp].
Definition one_space : str := [sp].

(** Remembers the value of a test together with the equation it satisfies. *)
Definition inspect {A : Type} (a : A) : {b : A | a = b} := exist _ a eq_refl.

(** The loop of [despacifier]:
<<
    while str_.__contains__('  '):
        str_ = str_.replace('  ', ' ')
>> *)
Equations? despacifier_loop (s : str) : str by wf (length s) lt :=
  despacifier_loop s with inspect (contains two_spaces s) := {
    | exist _ true Hc => despacifier_loop (replace two_spaces one_space s);
    | exist _ false _ => s }.
Proof.
  (* each round removes at least one character *)
  assert (Hle : forall skip t,
             length (replace_from two_spaces one_space skip t) <= length t).
  { intros skip t. revert skip.
    induction t as [|c t IH]; intros skip; [simpl; lia|].
    destruct skip as [|k]; cbn [replace_from].
    - destruct (startswith two_spaces (c :: t)).
      + specialize (IH 1).
        cbn [two_spaces one_space length Nat.sub app] in *. lia.
      + specialize (IH 0). cbn [length] in *. lia.
    - specialize (IH k). cbn [length]. lia. }
  unfold replace. clear despacifier_loop.
  induction s as [|c t IH]; [discriminate|].
  cbn [contains] in Hc. cbn [replace_from].
  destruct (startswith two_spaces (c :: t)) eqn:Hs.
  - destruct t as [|d t'].
    + cbn in Hs. rewrite andb_false_r in Hs. discriminate.
    + cbn [two_spaces one_space length Nat.sub app replace_from].
      specialize (Hle 0 t'). lia.
  - cbn [orb] in Hc. specialize (IH Hc). cbn [length]. lia.
Qed.

(** Lines 38-46. *)
Definition despacifier (str_ : str) : str :=
  let str_ := despacifier_loop str_ in
  let str_ := strip str_ in
  str_.

(** The same loop with an iteration budget: [None] when the budget runs out
    before the loop condition fails. *)
Fixpoint despacifier_loop_fuel (fuel : nat) (s : str) : option str :=
  match fuel with
  | O => None
  | S n =>
      if contains two_spaces s
      then despacifier_loop_fuel n (replace two_spaces one_space s)
      else Some s
  end.

(** Lines 48-68: the items trimmed, the blank ones left out. *)
Fixpoint remove_empty (input_list : list str) : list str :=
  match input_list with
  | [] => []
  | a :: rest =>
      let l := strip a in
      if length l =? 0 then remove_empty rest
      else l :: remove_empty rest
  end.

(** Lines 70-77. *)
Definition space2comma (str_ : str) : str :=
  let str_ := despacifier str_ in
  let str_ := replace one_space (lit ",") str_ in
  str_.

Definition dquote : str := ["034"%char].
Definition rbrace : str := lit "}".

(** The body of the loop [for q in p] of [tokenize_header]; [sanitized_ch]
    is the accumulator. *)
Definition tokenize_piece (sanitized_ch : str) (q : str) : str :=
  let q := strip q in
  if contains rbrace q && negb (startswith rbrace q) then
    let r := remove_empty (split "}" q) in
    let sanitized_ch :=
      sanitized_ch ++
      (if length r =? 0 then dquote ++ dquote ++ lit ","
       else dquote ++ nth 0 r [] ++ dquote ++ lit ",") in
    if 1 <? length r then
      fold_left (fun acc s => acc ++ dquote ++ s ++ dquote ++ lit ",")
                (split sp (nth 1 r [])) sanitized_ch
    else sanitized_ch
  else
    let r := remove_empty (split sp q) in
    fold_left
      (fun acc s =>
         let s := if startswith rbrace s then slice_from 1 s else s in
         acc ++ dquote ++ s ++ dquote ++ lit ",")
      r sanitized_ch.

(** Lines 79-120. *)
Definition tokenize_header (str_ : str) : str :=
  let l := despacifier str_ in
  let p := remove_empty (split "{" l) in
  let sanitized_ch := fold_left tokenize_piece p [] in
  drop_last sanitized_ch.

(* ===================================================================== *)
(** ** [exceptions.py]                                                      *)
(* ===================================================================== *)

(** The values the [parser_behavior] argument is called with. *)
Inductive pyval : Type :=
| PyInt (z : Z)
| PyStr (s : str).

(** [str(v)] *)
Definition py_str (v : pyval) : str :=
  match v with
  | PyInt z => str_of_int z
  | PyStr s => s
  end.

(** The three concrete subclasses of [Odt2CsvException], each with its
    [arg] attribute. *)
Inductive Odt2CsvException : Type :=
| InvalidParserBehaviorError (arg : pyval)
| MultipleTableStartsError (arg : nat)
| ODTFileNotFoundError (arg : str).

(** [__repr__], which is also [__str__]. *)
Definition exn_repr (e : Odt2CsvException) : str :=
  match e with
  | InvalidParserBehaviorError arg =>
      lit "Cannot find parser behavior: " ++ py_str arg ++
      lit ". You must specify either " ++ dquote ++ lit "new" ++ dquote ++
      lit ", " ++ dquote ++ lit "fail" ++ dquote ++ lit ", or " ++
      dquote ++ lit "raw" ++ dquote ++
      lit " (see the documentation for further details.)"
  | MultipleTableStartsError arg =>
      lit "Cannot convert ODT file that has multiple (" ++
      str_of_int (Z.of_nat arg) ++ lit ") table starts."
  | ODTFileNotFoundError arg =>
      lit "Cannot find the input ODT file: " ++ arg ++
      lit ". You must specify a valid file path."
  end.

(** What a call of [convert] can raise: one of the exceptions above, or the
    built-in [OSError] of an [open] that fails ([FileNotFoundError],
    [PermissionError], ...), with the file name it carries. *)
Inductive exn : Type :=
| Odt2Csv (e : Odt2CsvException)
| OSError (filename : str).

Coercion Odt2Csv : Odt2CsvException >-> exn.

(** A result [(inl e, w)] is read against the type expected of it, so that
    one of the three exceptions can stand where an [exn] is raised. *)
Arguments inl {A B} & a.
Arguments pair {A B} & a b.

(* ===================================================================== *)
(** ** Files, file objects and the monad of [convert]                      *)
(* ===================================================================== *)

Module IO.

Definition path := str.

Inductive mode : Type := ModeR | ModeW | ModeA.

(** What a call does to the outside, in the order it does it. *)
Inductive event : Type :=
| EvExists (p : path)
| EvOpen (h : nat) (p : path) (m : mode)
| EvReadLine (h : nat) (l : str)
| EvWrite (h : nat) (data : str)
| EvClose (h : nat).

(** The file system as a call sees it.  [node p] is the file the path [p]
    names: two paths name one file exactly when they have the same node
    ([run.csv] and [./run.csv], a link and its target).  [text k] is the
    text of the file [k] when it exists, as reading in text mode delivers
    it; every file that exists is a regular file the process may read.
    [writable k] tells whether [open] in mode ['w'] or ['a'] succeeds on
    [k]: its directory exists and the process may create or write it. *)
Record fsys : Type := mkFs {
  node : path -> path;
  text : path -> option str;
  writable : path -> bool
}.

(** The text of the file a path names. *)
Definition lookup (fs : fsys) (p : path) : option str := text fs (node fs p).

Coercion lookup : fsys >-> Funclass.

(** [files] is the file system, [handles] the file objects that are open
    (identifier and path), [next_handle] the next fresh identifier and
    [trace] the events so far, oldest first. *)
Record world : Type := mkWorld {
  files : fsys;
  handles : list (nat * path);
  next_handle : nat;
  trace : list event
}.

Definition io (A : Type) : Type := world -> (exn + A) * world.

Definition ret {A : Type} (a : A) : io A := fun w => (inr a, w).

Definition raise {A : Type} (e : exn) : io A :=
  fun w => (inl e, w).

Definition bind {A B : Type} (m : io A) (k : A -> io B) : io B :=
  fun w =>
    match m w with
    | (inl e, w') => (inl e, w')
    | (inr a, w') => k a w'
    end.

Definition log (e : event) (w : world) : world :=
  mkWorld (files w) (handles w) (next_handle w) (trace w ++ [e]).

(** The file system once the file that [p] names holds the text [c]: the
    file changes under every path that names it. *)
Definition fs_set (fs : fsys) (p : path) (c : str) : fsys :=
  mkFs (node fs)
       (fun k => if str_eqb k (node fs p) then Some c else text fs k)
       (writable fs).

Fixpoint handle_path (h : nat) (hs : list (nat * path)) : option path :=
  match hs with
  | [] => None
  | (h', p) :: rest => if h' =? h then Some p else handle_path h rest
  end.

Definition text_of (fs : fsys) (p : path) : str :=
  match fs p with
  | Some c => c
  | None => []
  end.

(** [os.path.exists(p)], in a file system that holds regular files only. *)
Definition os_path_exists (p : path) : io bool :=
  fun w =>
    (inr (match files w p with Some _ => true | None => false end),
     log (EvExists p) w).

(** [open(p, m)].  Mode ['r'] needs the file to exist and leaves the file
    system alone; mode ['w'] creates or truncates the file and mode ['a']
    creates it when it is missing, both only where the file can be written.
    An [open] that fails raises [OSError] and changes nothing.  Nothing is
    read at this point. *)
Definition open_ (p : path) (m : mode) : io nat :=
  fun w =>
    let h := next_handle w in
    let opened (fs : fsys) : (exn + nat) * world :=
      (inr h,
       mkWorld fs ((h, p) :: handles w) (S h) (trace w ++ [EvOpen h p m])) in
    match m with
    | ModeR =>
        match files w p with
        | Some _ => opened (files w)
        | None => (inl (OSError p), w)
        end
    | ModeW =>
        if writable (files w) (node (files w) p)
        then opened (fs_set (files w) p [])
        else (inl (OSError p), w)
    | ModeA =>
        if writable (files w) (node (files w) p)
        then opened (fs_set (files w) p (text_of (files w) p))
        else (inl (OSError p), w)
    end.

(** [f.close()] *)
Definition close (h : nat) : io unit :=
  fun w =>
    (inr tt,
     mkWorld (files w)
             (filter (fun e => negb (fst e =? h)) (handles w))
             (next_handle w) (trace w ++ [EvClose h])).

(** [f.write(data)] on a file object opened for appending.  (A write on an
    identifier that is not open changes nothing; [convert] never does it.) *)
Definition write (h : nat) (data : str) : io unit :=
  fun w =>
    match handle_path h (handles w) with
    | Some p =>
        (inr tt,
         mkWorld (fs_set (files w) p (text_of (files w) p ++ data))
                 (handles w) (next_handle w) (trace w ++ [EvWrite h data]))
    | None => (inr tt, w)
    end.

(** The lines of a text, each with its line feed, as iterating over a file
    object yields them. *)
Fixpoint text_lines (content : str) : list str :=
  match content with
  | [] => []
  | c :: t =>
      if Ascii.eqb c nl then [c] :: text_lines t
      else match text_lines t with
           | [] => [[c]]
           | l :: ls => (c :: l) :: ls
           end
  end.

(** The lines a fresh file object [h] is about to yield: those of the text
    its file has when the iteration starts. *)
Definition pending_lines (h : nat) (w : world) : list str :=
  match handle_path h (handles w) with
  | Some p => text_lines (text_of (files w) p)
  | None => []
  end.

Fixpoint fold_io {S : Type} (body : S -> str -> io S) (ls : list str) (s : S)
  : io S :=
  match ls with
  | [] => ret s
  | l :: rest => bind (body s l) (fun s' => fold_io body rest s')
  end.

(** [for l in f: body], with the loop's variables in [s].  The file is
    read when the loop starts; in [convert] the body writes to another
    file, or there is no line at all, so reading ahead changes nothing. *)
Definition for_lines {S : Type} (h : nat) (body : S -> str -> io S) (s : S)
  : io S :=
  fun w =>
    fold_io (fun s l => bind (fun w => (inr tt, log (EvReadLine h l) w))
                             (fun _ => body s l))
            (pending_lines h w) s w.

End IO.

Import IO.

Declare Scope io_scope.
Delimit Scope io_scope with io.
Notation "x <- m ;; k" := (bind m (fun x => k))
  (at level 100, m at next level, right associativity) : io_scope.
Notation "m ;;; k" := (bind m (fun _ => k))
  (at level 100, right associativity) : io_scope.
Open Scope io_scope.

(* ===================================================================== *)
(** ** [convert]                                                           *)
(* ===================================================================== *)

Definition table_start : str := lit "# Table Start".

(** [os.path.splitext(p)[0]] on a POSIX path: the extension starts at the
    last dot of the last component, unless only dots precede it there. *)
Definition splitext_root (p : str) : str :=
  let sepIndex := rfind "/" p in
  let dotIndex := rfind "." p in
  if (sepIndex <? dotIndex)%Z then
    let filename_start := Z.to_nat (sepIndex + 1) in
    let before_dot :=
      firstn (Z.to_nat dotIndex - filename_start) (skipn filename_start p) in
    if existsb (fun c => negb (Ascii.eqb c ".")) before_dot
    then slice_to (Z.to_nat dotIndex) p
    else p
  else p.

(** Lines 145-154: the path of the CSV file. *)
Definition output_path (odt_input : str) (csv_output output_suffix : option str)
  : str :=
  match csv_output, output_suffix with
  | None, None => splitext_root odt_input ++ lit ".csv"
  | None, Some suffix => splitext_root odt_input ++ suffix ++ lit ".csv"
  | Some fo, _ =>
      if negb (str_eqb (slice_last 4 fo) (lit ".csv")) then fo ++ lit ".csv"
      else fo
  end.

(** Lines 161-166: the body of the loop that counts the table starts. *)
Definition prescan_body (table_start_count : nat) (l : str) : io nat :=
  let l := strip l in
  ret (if startswith table_start l then table_start_count + 1
       else table_start_count).

(** Lines 174-185: [raw_parsing_mode] from [parser_behavior]. *)
Definition parsing_mode (parser_behavior : pyval) (table_start_count : nat)
  : io (option bool) :=
  let b := py_str parser_behavior in
  if str_eqb b (lit "1") || str_eqb b (lit "new") then ret (Some false)
  else if str_eqb b (lit "2") || str_eqb b (lit "fail") then
    if 1 <? table_start_count
    then raise (MultipleTableStartsError table_start_count)
    else ret (Some false)
  else if str_eqb b (lit "3") || str_eqb b (lit "raw") then ret (Some true)
  else raise (InvalidParserBehaviorError parser_behavior).

(** Lines 208-267: what the loop writes for a stripped line [l] that is not
    skipped, if anything. *)
Definition line_output (keep_unit : bool) (l : str) : option str :=
  if str_eqb (slice_to 10 l) (lit "# Columns:") then
    Some (tokenize_header (slice_from 10 l) ++ [nl])
  else if str_eqb (slice_to 8 l) (lit "# Units:") then
    if keep_unit then Some (tokenize_header (slice_from 8 l) ++ [nl])
    else None
  else if str_eqb (slice_to 1 l) (lit "#") then None
  else Some (space2comma l ++ [nl]).

(** Lines 196-267: the body of the main loop; the loop variable is
    [encountered_table_starts]. *)
Definition main_body (raw_parsing_mode : bool) (table_start_count : nat)
    (keep_unit : bool) (write_out : nat)
    (encountered_table_starts : nat) (l : str) : io nat :=
  let l := strip l in
  let encountered_table_starts :=
    if startswith table_start l then encountered_table_starts + 1
    else encountered_table_starts in
  if negb raw_parsing_mode && (encountered_table_starts <? table_start_count)
  then ret encountered_table_starts
  else
    match line_output keep_unit l with
    | Some out => write write_out out ;;; ret encountered_table_starts
    | None => ret encountered_table_starts
    end.

(** Lines 188-270: the block under [if raw_parsing_mode is not None]. *)
Definition main_pass (fo : str) (read_in : nat) (table_start_count : nat)
    (keep_unit : bool) (raw_parsing_mode : option bool) : io unit :=
  match raw_parsing_mode with
  | Some raw =>
      truncated <- open_ fo ModeW ;;
      close truncated ;;;
      write_out <- open_ fo ModeA ;;
      _ <- for_lines read_in
             (main_body raw table_start_count keep_unit write_out) 0 ;;
      close write_out
  | None => ret tt
  end.

(** Lines 122-273. *)
Definition convert (odt_input : str) (csv_output output_suffix : option str)
    (keep_unit : bool) (parser_behavior : pyval) : io unit :=
  input_exists <- os_path_exists odt_input ;;
  if negb input_exists then raise (ODTFileNotFoundError odt_input)
  else
    let fo := output_path odt_input csv_output output_suffix in
    read_in <- open_ odt_input ModeR ;;
    table_start_count <- for_lines read_in prescan_body 0 ;;
    close read_in ;;;
    read_in <- open_ odt_input ModeR ;;
    raw_parsing_mode <- parsing_mode parser_behavior table_start_count ;;
    main_pass fo read_in table_start_count keep_unit raw_parsing_mode ;;;
    close read_in.


(* ===================================================================== *)
(** ** The specification's wording, as definitions of its own             *)
(* ===================================================================== *)

Module Spec.

(** "Collapse consecutive space characters to one": a space followed by a
    space is dropped. *)
Fixpoint collapse_spaces (s : str) : str :=
  match s with
  | [] => []
  | c :: t =>
      if Ascii.eqb c sp && startswith one_space t then collapse_spaces t
      else c :: collapse_spaces t
  end.

(** "Replace each remaining single space with a comma." *)
Definition comma_for_space (c : ascii) : ascii :=
  if Ascii.eqb c sp then ","%char else c.

(** Section 4.2: collapse, trim, then commas for spaces. *)
Definition format_row (line : str) : str :=
  map comma_for_space (strip (collapse_spaces line)).

(** "Each wrapped in double quotes." *)
Definition quoted (token : str) : str := dquote ++ token ++ dquote.

(** "Tokens joined with [,], with no trailing comma." *)
Fixpoint join (sep : str) (l : list str) : str :=
  match l with
  | [] => []
  | [x] => x
  | x :: rest => x ++ sep ++ join sep rest
  end.

(** "Any literal leading [}] character stripped from an individual
    space-separated token." *)
Definition strip_leading_rbrace (token : str) : str :=
  if startswith rbrace token then slice_from 1 token else token.

(** Section 4.1 on one piece of the split on [{].  Where the text is silent
    the reading is the one of the code: blank pieces and sub-pieces are
    dropped and the others trimmed, as [remove_empty] does, and a piece that
    starts with [}] is split on spaces like a piece without [}]. *)
Definition piece_tokens (q : str) : list str :=
  if contains rbrace q && negb (startswith rbrace q) then
    match remove_empty (split "}" q) with
    | [] => [[]]
    | first :: remaining => first :: flat_map (split sp) remaining
    end
  else map strip_leading_rbrace (remove_empty (split sp q)).

Definition header_tokens (s : str) : list str :=
  flat_map piece_tokens (remove_empty (split "{" (strip (collapse_spaces s)))).

Definition tokenize (s : str) : str :=
  join (lit ",") (map quoted (header_tokens s)).

(** A CSV header line from its tokens. *)
Definition csv_header (tokens : list str) : str :=
  join (lit ",") (map quoted tokens).

(** Section 3, "table segment": the lines from the last table-start marker
    on, or every line when there is no marker. *)
Definition is_table_start (line : str) : bool :=
  startswith table_start (strip line).

Fixpoint final_segment (lines : list str) : list str :=
  match lines with
  | [] => []
  | l :: rest =>
      if existsb is_table_start rest then final_segment rest else l :: rest
  end.

(** The lines written for a sequence of lines, none of them skipped. *)
Definition converted (keep_unit : bool) (lines : list str) : list str :=
  flat_map (fun l => match line_output keep_unit (strip l) with
                     | Some out => [out]
                     | None => []
                     end) lines.

End Spec.

(** The number of table-start markers among [lines]: the [T] of the
    specification. *)
Definition count_table_starts (lines : list str) : nat :=
  length (filter Spec.is_table_start lines).

(** The strings the main loop writes, in order, from [lines] on, when it has
    already met [encountered] markers. *)
Fixpoint emitted (raw_parsing_mode : bool) (table_start_count : nat)
    (keep_unit : bool) (encountered : nat) (lines : list str) : list str :=
  match lines with
  | [] => []
  | l0 :: rest =>
      let l := strip l0 in
      let encountered :=
        if startswith table_start l then encountered + 1 else encountered in
      (if negb raw_parsing_mode && (encountered <? table_start_count) then []
       else match line_output keep_unit l with
            | Some out => [out]
            | None => []
            end)
      ++ emitted raw_parsing_mode table_start_count keep_unit encountered rest
  end.

(** The world in which [convert] decides on [raw_parsing_mode] (line 173):
    the input was found, read once for the count, closed and reopened. *)
Definition prescanned (odt_input : str) (w : world) : world :=
  let h := next_handle w in
  mkWorld (files w)
          ((S h, odt_input)
           :: filter (fun e => negb (fst e =? h)) (handles w))
          (S (S h))
          (trace w
           ++ [EvExists odt_input; EvOpen h odt_input ModeR]
           ++ map (EvReadLine h) (text_lines (text_of (files w) odt_input))
           ++ [EvClose h; EvOpen (S h) odt_input ModeR]).

(** The three spellings of each behaviour, as [convert] tests them. *)
Definition is_new (v : pyval) : bool :=
  str_eqb (py_str v) (lit "1") || str_eqb (py_str v) (lit "new").
Definition is_fail (v : pyval) : bool :=
  str_eqb (py_str v) (lit "2") || str_eqb (py_str v) (lit "fail").
Definition is_raw (v : pyval) : bool :=
  str_eqb (py_str v) (lit "3") || str_eqb (py_str v) (lit "raw").

(** The events that touch a file for writing. *)
Definition is_output_event (e : event) : bool :=
  match e with
  | EvOpen _ _ ModeW | EvOpen _ _ ModeA | EvWrite _ _ => true
  | _ => false
  end.

(** The lines read so far, in order. *)
Definition lines_read (tr : list event) : list str :=
  flat_map (fun e => match e with EvReadLine _ l => [l] | _ => [] end) tr.

(** The text [tokenize_header] accumulates for a list of tokens. *)
Definition rendered (tokens : list str) : str :=
  concat (map (fun t => dquote ++ t ++ dquote ++ lit ",") tokens).

(** The tokens [tokenize_header] takes from one piece. *)
Definition piece_tokens_written (q : str) : list str :=
  let q := strip q in
  if contains rbrace q && negb (startswith rbrace q) then
    match remove_empty (split "}" q) with
    | [] => [[]]
    | [first] => [first]
    | first :: second :: _ => first :: split sp second
    end
  else map Spec.strip_leading_rbrace (remove_empty (split sp q)).

Definition default_parser_behavior : pyval := PyInt 2.

(* ===================================================================== *)
(** ** Sample files                                                        *)
(* ===================================================================== *)

Module Examples.

(** A text from its lines, each ended by a line feed. *)
Definition text (ls : list str) : str :=
  concat (map (fun l => l ++ [nl]) ls).

(** Path resolution in a single directory: [./] in front of a name
    changes nothing. *)
Fixpoint here (p : path) : path :=
  match p with
  | c :: d :: t => if Ascii.eqb c "." && Ascii.eqb d "/" then here t else p
  | _ => p
  end.

(** A world that is one directory whose only file is [p], with nothing open
    and nothing done; a name with a directory part cannot be created. *)
Definition one_file (p : path) (content : str) : world :=
  mkWorld (mkFs here
                (fun k => if str_eqb k (here p) then Some content else None)
                (fun k => negb (contains (lit "/") k)))
          [] 0 [].

(** Two data rows, then a second table with three. *)
Definition first_segment : list str :=
  [lit "# ODT 1.0"; lit "# Table Start"; lit "# Columns: {A x} B"; lit "# Units: {} s";
   lit "1 2"; lit "3 4"; lit "# Table End"].
Definition second_segment : list str :=
  [lit "# Columns: {C y} D"; lit "# Units: {} J"; lit " 5   6"; lit "7 8"; lit "9 10";
   lit "# Table End"].
Definition two_tables : str :=
  text (first_segment ++ [lit "# Table Start"] ++ second_segment).

(** A data row ahead of the only marker. *)
Definition row_before_marker : str := text [lit "1 2"; lit "# Table Start"; lit "3 4"].

Definition one_table : str := text [lit "# Table Start"; lit "1 2"].

End Examples.

(* ===================================================================== *)
(** ** The space-collapsing loop                                           *)
(* ===================================================================== *)

Section Despacifier.

Local Abbreviation R := (replace two_spaces one_space).

Lemma replace_nil : R [] = [].
Proof. reflexivity. Qed.

Lemma replace_pair (t : str) : R (sp :: sp :: t) = sp :: R t.
Proof. reflexivity. Qed.

Lemma replace_other (c : ascii) (t : str) :
  Ascii.eqb c sp && startswith one_space t = false ->
  R (c :: t) = c :: R t.
Proof.
  intros H. unfold replace. cbn [replace_from].
  assert (Hs : startswith two_spaces (c :: t) = false).
  { destruct t as [|d t'].
    - cbn [startswith two_spaces]. apply andb_false_r.
    - cbn [startswith two_spaces one_space] in *.
      rewrite (Ascii.eqb_sym sp c), (Ascii.eqb_sym sp d).
      rewrite andb_true_r in *. exact H. }
  rewrite Hs. reflexivity.
Qed.

Lemma startswith_space_cases (c : ascii) (t : str) :
  Ascii.eqb c sp && startswith one_space t = true ->
  c = sp /\ exists t', t = sp :: t'.
Proof.
  intros H. apply andb_prop in H as [Hc Ht].
  apply Ascii.eqb_eq in Hc. split; [exact Hc|].
  destruct t as [|d t']; [discriminate|].
  cbn [startswith one_space] in Ht. rewrite andb_true_r in Ht.
  apply Ascii.eqb_eq in Ht. exists t'. congruence.
Qed.

Lemma contains_two_spaces_cons (c : ascii) (t : str) :
  contains two_spaces (c :: t) =
  (Ascii.eqb c sp && startswith one_space t) || contains two_spaces t.
Proof.
  cbn [contains]. f_equal.
Qed.

Lemma replace_length (s : str) :
  length (R s) + (if contains two_spaces s then 1 else 0) <= length s.
Proof.
  induction s as [s IH] using (well_founded_induction
                                 (Wf_nat.well_founded_ltof _ (@length ascii))).
  unfold Wf_nat.ltof in IH.
  destruct s as [|c t]; [cbn; lia|].
  rewrite contains_two_spaces_cons.
  destruct (Ascii.eqb c sp && startswith one_space t) eqn:Hh.
  - apply startswith_space_cases in Hh as [-> [t' ->]].
    rewrite replace_pair. cbn [orb length].
    specialize (IH t'). cbn [length] in IH.
    destruct (contains two_spaces t'); lia.
  - rewrite (replace_other _ _ Hh). cbn [orb length].
    specialize (IH t). cbn [length] in IH.
    destruct (contains two_spaces t); lia.
Qed.

Lemma despacifier_loop_step (s : str) :
  despacifier_loop s =
  if contains two_spaces s then despacifier_loop (R s) else s.
Proof.
  funelim (despacifier_loop s).
  - rewrite Hc. reflexivity.
  - rewrite e. reflexivity.
Qed.

Lemma despacifier_loop_fuel_enough (fuel : nat) (s : str) :
  length s < fuel ->
  despacifier_loop_fuel fuel s = Some (despacifier_loop s).
Proof.
  revert s. induction fuel as [|n IH]; intros s Hlt; [lia|].
  cbn [despacifier_loop_fuel]. rewrite (despacifier_loop_step s).
  pose proof (replace_length s) as Hlen.
  destruct (contains two_spaces s); [|reflexivity].
  apply IH. lia.
Qed.

Lemma despacifier_loop_exit (s : str) :
  contains two_spaces (despacifier_loop s) = false.
Proof.
  induction s as [s IH] using (well_founded_induction
                                 (Wf_nat.well_founded_ltof _ (@length ascii))).
  unfold Wf_nat.ltof in IH.
  rewrite despacifier_loop_step.
  pose proof (replace_length s) as Hlen.
  destruct (contains two_spaces s) eqn:Hc; [|exact Hc].
  apply IH. lia.
Qed.

End Despacifier.

(* ===================================================================== *)
(** ** The loop computes the collapse of the specification                 *)
(* ===================================================================== *)

Section Collapse.

Import Spec.

Local Abbreviation R := (replace two_spaces one_space).

Lemma collapse_pair (t : str) :
  collapse_spaces (sp :: sp :: t) = collapse_spaces (sp :: t).
Proof. reflexivity. Qed.

Lemma collapse_other (c : ascii) (t : str) :
  Ascii.eqb c sp && startswith one_space t = false ->
  collapse_spaces (c :: t) = c :: collapse_spaces t.
Proof. intros H. cbn [collapse_spaces]. rewrite H. reflexivity. Qed.

Lemma replace_keeps_head (t : str) :
  startswith one_space (R t) = startswith one_space t.
Proof.
  destruct t as [|c t']; [reflexivity|].
  destruct (Ascii.eqb c sp && startswith one_space t') eqn:Hh.
  - apply startswith_space_cases in Hh as [-> [t'' ->]].
    rewrite replace_pair. reflexivity.
  - rewrite (replace_other _ _ Hh). reflexivity.
Qed.

Lemma collapse_fixed (s : str) :
  contains two_spaces s = false -> collapse_spaces s = s.
Proof.
  induction s as [|c t IH]; [reflexivity|].
  rewrite contains_two_spaces_cons. intros H.
  apply orb_false_elim in H as [Hh Ht].
  rewrite (collapse_other _ _ Hh), (IH Ht). reflexivity.
Qed.

Lemma collapse_replace (s : str) :
  collapse_spaces (R s) = collapse_spaces s.
Proof.
  induction s as [s IH] using (well_founded_induction
                                 (Wf_nat.well_founded_ltof _ (@length ascii))).
  unfold Wf_nat.ltof in IH.
  destruct s as [|c t]; [reflexivity|].
  destruct (Ascii.eqb c sp && startswith one_space t) eqn:Hh.
  - apply startswith_space_cases in Hh as [-> [t' ->]].
    rewrite replace_pair, collapse_pair.
    assert (Ht' : collapse_spaces (R t') = collapse_spaces t')
      by (apply IH; cbn [length]; lia).
    cbn [collapse_spaces]. rewrite replace_keeps_head, Ht'. reflexivity.
  - rewrite (replace_other _ _ Hh).
    assert (Ht : collapse_spaces (R t) = collapse_spaces t)
      by (apply IH; cbn [length]; lia).
    cbn [collapse_spaces]. rewrite replace_keeps_head, Hh, Ht. reflexivity.
Qed.

Lemma despacifier_loop_collapse (s : str) :
  despacifier_loop s = collapse_spaces s.
Proof.
  induction s as [s IH] using (well_founded_induction
                                 (Wf_nat.well_founded_ltof _ (@length ascii))).
  unfold Wf_nat.ltof in IH.
  rewrite despacifier_loop_step.
  pose proof (replace_length s) as Hlen.
  destruct (contains two_spaces s) eqn:Hc.
  - rewrite IH by lia. apply collapse_replace.
  - symmetry. apply collapse_fixed. exact Hc.
Qed.

(** *** Trimming *)

Lemma isspace_sp : isspace sp = true.
Proof. reflexivity. Qed.

Lemma rstrip_cons (c : ascii) (t : str) :
  rstrip (c :: t) =
  match rstrip t with
  | [] => if isspace c then [] else [c]
  | t' => c :: t'
  end.
Proof. reflexivity. Qed.

Lemma rstrip_head (s : str) (a : ascii) (r : str) :
  rstrip s = a :: r -> exists t, s = a :: t.
Proof.
  destruct s as [|c t]; [discriminate|].
  rewrite rstrip_cons. destruct (rstrip t).
  - destruct (isspace c); [discriminate|].
    intros H; injection H as -> _. now exists t.
  - intros H; injection H as -> _. now exists t.
Qed.

Lemma rstrip_idem (s : str) : rstrip (rstrip s) = rstrip s.
Proof.
  induction s as [|c t IH]; [reflexivity|].
  rewrite rstrip_cons. destruct (rstrip t) as [|a r] eqn:Hr.
  - destruct (isspace c) eqn:Hc; [reflexivity|].
    rewrite rstrip_cons. cbn [rstrip]. rewrite Hc. reflexivity.
  - rewrite rstrip_cons, IH. reflexivity.
Qed.

Lemma lstrip_head (s : str) :
  match lstrip s with
  | [] => True
  | a :: _ => isspace a = false
  end.
Proof.
  induction s as [|c t IH]; [exact I|].
  cbn [lstrip]. destruct (isspace c) eqn:Hc; [exact IH|exact Hc].
Qed.

Lemma lstrip_fixed (s : str) :
  match s with [] => True | a :: _ => isspace a = false end ->
  lstrip s = s.
Proof.
  destruct s as [|a t]; [reflexivity|].
  intros H. cbn [lstrip]. rewrite H. reflexivity.
Qed.

Lemma strip_idem (s : str) : strip (strip s) = strip s.
Proof.
  unfold strip.
  rewrite (lstrip_fixed (rstrip (lstrip s))); [apply rstrip_idem|].
  pose proof (lstrip_head s) as Hh.
  destruct (rstrip (lstrip s)) as [|a r] eqn:Hr; [exact I|].
  apply rstrip_head in Hr as [t Ht]. rewrite Ht in Hh. exact Hh.
Qed.

Lemma collapse_nonempty (c : ascii) (t : str) :
  collapse_spaces (c :: t) <> [].
Proof.
  revert c. induction t as [|d t' IH]; intros c.
  - cbn [collapse_spaces startswith one_space].
    rewrite andb_false_r. discriminate.
  - cbn [collapse_spaces].
    destruct (Ascii.eqb c sp && startswith one_space (d :: t')).
    + apply IH.
    + discriminate.
Qed.

Lemma lstrip_collapse (s : str) :
  lstrip (collapse_spaces s) = collapse_spaces (lstrip s).
Proof.
  induction s as [|c t IH]; [reflexivity|].
  destruct (Ascii.eqb c sp && startswith one_space t) eqn:Hh.
  - cbn [collapse_spaces]. rewrite Hh.
    apply startswith_space_cases in Hh as [-> _].
    cbn [lstrip]. rewrite isspace_sp. exact IH.
  - rewrite (collapse_other _ _ Hh). cbn [lstrip].
    destruct (isspace c); [exact IH|].
    rewrite (collapse_other _ _ Hh). reflexivity.
Qed.

Lemma rstrip_collapse (s : str) :
  rstrip (collapse_spaces s) = collapse_spaces (rstrip s).
Proof.
  induction s as [|c t IH]; [reflexivity|].
  destruct (Ascii.eqb c sp && startswith one_space t) eqn:Hh.
  - cbn [collapse_spaces]. rewrite Hh, IH.
    apply startswith_space_cases in Hh as [-> [t' ->]].
    rewrite (rstrip_cons sp (sp :: t')).
    destruct (rstrip (sp :: t')) as [|a r] eqn:Hr.
    + rewrite isspace_sp. reflexivity.
    + destruct (rstrip_head _ _ _ Hr) as [u Hu]. injection Hu as <- _.
      reflexivity.
  - rewrite (collapse_other _ _ Hh), !rstrip_cons, IH.
    destruct (rstrip t) as [|a r] eqn:Hr.
    + cbn [collapse_spaces]. destruct (isspace c); [reflexivity|].
      cbn [collapse_spaces startswith one_space].
      rewrite andb_false_r. reflexivity.
    + destruct (rstrip_head _ _ _ Hr) as [u Hu]. subst t.
      assert (Hh' : Ascii.eqb c sp && startswith one_space (a :: r) = false)
        by exact Hh.
      rewrite (collapse_other _ _ Hh').
      destruct (collapse_spaces (a :: r)) eqn:Hc; [|reflexivity].
      exfalso. exact (collapse_nonempty _ _ Hc).
Qed.

Lemma strip_collapse (s : str) :
  strip (collapse_spaces s) = collapse_spaces (strip s).
Proof.
  unfold strip. rewrite lstrip_collapse, rstrip_collapse. reflexivity.
Qed.

Lemma despacifier_collapse (s : str) :
  despacifier s = strip (collapse_spaces s).
Proof. unfold despacifier. rewrite despacifier_loop_collapse. reflexivity. Qed.

Lemma replace_space_comma (s : str) :
  replace one_space (lit ",") s = map comma_for_space s.
Proof.
  unfold replace. induction s as [|c t IH]; [reflexivity|].
  cbn [replace_from map]. rewrite <- IH.
  unfold comma_for_space.
  cbn [startswith one_space length Nat.sub].
  rewrite andb_true_r, (Ascii.eqb_sym sp c).
  destruct (Ascii.eqb c sp); reflexivity.
Qed.

Lemma space2comma_stripped (line : str) :
  space2comma (strip line) = format_row line.
Proof.
  unfold space2comma, format_row.
  rewrite replace_space_comma, despacifier_collapse.
  rewrite strip_collapse, strip_idem, <- strip_collapse. reflexivity.
Qed.

End Collapse.

(* ===================================================================== *)
(** ** Running [convert]                                                   *)
(* ===================================================================== *)

Section Run.

Import Spec.

Lemma str_eqb_eq (a b : str) : str_eqb a b = true <-> a = b.
Proof.
  unfold str_eqb. destruct (list_eq_dec ascii_dec a b); split;
    congruence.
Qed.

Lemma str_eqb_refl (a : str) : str_eqb a a = true.
Proof. apply str_eqb_eq. reflexivity. Qed.

Lemma str_eqb_neq (a b : str) : str_eqb a b = false <-> a <> b.
Proof.
  unfold str_eqb. destruct (list_eq_dec ascii_dec a b); split;
    congruence.
Qed.

Lemma fs_set_same (fs : fsys) (p : path) (c : str) :
  fs_set fs p c p = Some c.
Proof.
  unfold lookup. cbn [fs_set node text]. rewrite str_eqb_refl. reflexivity.
Qed.

Lemma fs_set_text_other (fs : fsys) (p : path) (c : str) (k : path) :
  k <> node fs p -> text (fs_set fs p c) k = text fs k.
Proof.
  intros H. cbn [fs_set text]. apply str_eqb_neq in H. rewrite H.
  reflexivity.
Qed.

Lemma fs_set_alias (fs : fsys) (p q : path) (c : str) :
  node fs q = node fs p -> fs_set fs p c q = Some c.
Proof.
  intros H. unfold lookup. cbn [fs_set node text].
  rewrite H, str_eqb_refl. reflexivity.
Qed.

(** Two file systems that differ at most in the file [fo] names give the
    same text under every path that names another file. *)
Lemma lookup_elsewhere (fs fs' : fsys) (fo p : path) :
  node fs' = node fs ->
  (forall k, k <> node fs fo -> text fs' k = text fs k) ->
  node fs p <> node fs fo ->
  fs' p = fs p.
Proof.
  intros Hn Ht Hp. unfold lookup. rewrite Hn. apply Ht. exact Hp.
Qed.

(** *** The counting loop *)

Lemma count_table_starts_cons (l : str) (ls : list str) :
  count_table_starts (l :: ls) =
  (if is_table_start l then 1 else 0) + count_table_starts ls.
Proof.
  unfold count_table_starts. cbn [filter].
  destruct (is_table_start l); reflexivity.
Qed.

Lemma fold_prescan (h : nat) (ls : list str) (n : nat) (w : world) :
  fold_io (fun s l => bind (fun w => (inr tt, log (EvReadLine h l) w))
                           (fun _ => prescan_body s l))
          ls n w
  = (inr (n + count_table_starts ls),
     mkWorld (files w) (handles w) (next_handle w)
             (trace w ++ map (EvReadLine h) ls)).
Proof.
  revert n w. induction ls as [|l ls IH]; intros n w.
  - cbn. rewrite Nat.add_0_r, app_nil_r. destruct w; reflexivity.
  - cbn [fold_io]. unfold bind at 1. unfold bind at 1.
    unfold prescan_body, ret. rewrite IH.
    rewrite count_table_starts_cons. unfold is_table_start.
    cbn [log files handles next_handle trace map].
    rewrite <- app_assoc. cbn [app].
    destruct (startswith table_start (strip l)); f_equal; f_equal; lia.
Qed.

Lemma for_lines_prescan (h : nat) (w : world) :
  for_lines h prescan_body 0 w
  = (inr (count_table_starts (pending_lines h w)),
     mkWorld (files w) (handles w) (next_handle w)
             (trace w ++ map (EvReadLine h) (pending_lines h w))).
Proof. unfold for_lines. rewrite fold_prescan. reflexivity. Qed.

(** *** The main loop *)

Lemma write_open (h : nat) (p : path) (data : str) (w : world) :
  handle_path h (handles w) = Some p ->
  write h data w
  = (inr tt,
     mkWorld (fs_set (files w) p (text_of (files w) p ++ data))
             (handles w) (next_handle w) (trace w ++ [EvWrite h data])).
Proof. intros H. unfold write. rewrite H. reflexivity. Qed.

Lemma main_body_run (raw : bool) (T : nat) (keep_unit : bool)
    (wo : nat) (fo : path) (enc : nat) (l : str) (w : world) :
  handle_path wo (handles w) = Some fo ->
  exists w',
    main_body raw T keep_unit wo enc l w
    = (inr (if startswith table_start (strip l) then enc + 1 else enc), w')
    /\ handles w' = handles w
    /\ next_handle w' = next_handle w
    /\ node (files w') = node (files w)
    /\ writable (files w') = writable (files w)
    /\ (forall k, k <> node (files w) fo ->
                  text (files w') k = text (files w) k)
    /\ text_of (files w') fo
       = text_of (files w) fo ++ concat (emitted raw T keep_unit enc [l])
    /\ (files w fo <> None -> files w' fo <> None).
Proof.
  intros Hwo. unfold main_body. cbn [emitted]. rewrite app_nil_r.
  set (enc1 := if startswith table_start (strip l) then enc + 1 else enc).
  destruct (negb raw && (enc1 <? T)).
  - exists w. cbn. rewrite app_nil_r. repeat split; auto.
  - destruct (line_output keep_unit (strip l)) as [out|].
    + unfold bind. rewrite (write_open wo fo out w Hwo). unfold ret.
      eexists. split; [reflexivity|].
      cbn [files handles next_handle trace concat]. rewrite app_nil_r.
      repeat split; auto.
      * intros k Hk. apply fs_set_text_other. exact Hk.
      * unfold text_of at 1. rewrite fs_set_same. reflexivity.
      * intros _. rewrite fs_set_same. discriminate.
    + exists w. cbn. rewrite app_nil_r. repeat split; auto.
Qed.

Lemma emitted_cons (raw : bool) (T : nat) (keep_unit : bool) (enc : nat)
    (l : str) (ls : list str) :
  emitted raw T keep_unit enc (l :: ls)
  = emitted raw T keep_unit enc [l]
    ++ emitted raw T keep_unit
         (if startswith table_start (strip l) then enc + 1 else enc) ls.
Proof. cbn [emitted]. rewrite app_nil_r. reflexivity. Qed.

Lemma fold_main (raw : bool) (T : nat) (keep_unit : bool)
    (rd wo : nat) (fo : path) (ls : list str) :
  forall (enc : nat) (w : world),
    handle_path wo (handles w) = Some fo ->
    exists enc' w',
      fold_io (fun s l => bind (fun w => (inr tt, log (EvReadLine rd l) w))
                               (fun _ => main_body raw T keep_unit wo s l))
              ls enc w = (inr enc', w')
      /\ handles w' = handles w
      /\ next_handle w' = next_handle w
      /\ node (files w') = node (files w)
      /\ writable (files w') = writable (files w)
      /\ (forall k, k <> node (files w) fo ->
                    text (files w') k = text (files w) k)
      /\ text_of (files w') fo
         = text_of (files w) fo ++ concat (emitted raw T keep_unit enc ls)
      /\ (files w fo <> None -> files w' fo <> None).
Proof.
  induction ls as [|l ls IH]; intros enc w Hwo.
  - exists enc, w. cbn. rewrite app_nil_r. repeat split; auto.
  - cbn [fold_io]. unfold bind at 1. unfold bind at 1.
    destruct (main_body_run raw T keep_unit wo fo enc l
                (log (EvReadLine rd l) w) Hwo)
      as (w1 & Hrun1 & Hh1 & Hn1 & Hnd1 & Hwr1 & Ho1 & Ht1 & He1).
    rewrite Hrun1.
    assert (Hwo1 : handle_path wo (handles w1) = Some fo)
      by (rewrite Hh1; exact Hwo).
    destruct (IH (if startswith table_start (strip l) then enc + 1 else enc)
                 w1 Hwo1)
      as (enc' & w' & Hrun & Hh & Hn & Hnd & Hwr & Ho & Ht & He).
    exists enc', w'. rewrite Hrun.
    cbn [log files handles next_handle trace] in *.
    repeat split; auto.
    + congruence.
    + congruence.
    + congruence.
    + congruence.
    + intros k Hk. rewrite Ho by (rewrite Hnd1; exact Hk). apply Ho1.
      exact Hk.
    + rewrite (emitted_cons raw T keep_unit enc l ls), concat_app.
      rewrite Ht, Ht1, app_assoc. reflexivity.
Qed.

(** *** The three ways out of [convert] *)

Lemma parsing_mode_pure (pb : pyval) (T : nat) (w w0 : world) :
  parsing_mode pb T w = (fst (parsing_mode pb T w0), w).
Proof.
  unfold parsing_mode.
  destruct (str_eqb (py_str pb) (lit "1") || str_eqb (py_str pb) (lit "new"));
    [reflexivity|].
  destruct (str_eqb (py_str pb) (lit "2") || str_eqb (py_str pb) (lit "fail")).
  - destruct (1 <? T); reflexivity.
  - destruct (str_eqb (py_str pb) (lit "3")
              || str_eqb (py_str pb) (lit "raw")); reflexivity.
Qed.

Lemma convert_not_found (odt co su : _) (ku : bool) (pb : pyval) (w : world) :
  files w odt = None ->
  convert odt co su ku pb w
  = (inl (ODTFileNotFoundError odt), log (EvExists odt) w).
Proof.
  intros Hf. unfold convert. unfold bind at 1. unfold os_path_exists.
  rewrite Hf. reflexivity.
Qed.

Lemma convert_prefix (odt : str) (co su : option str) (ku : bool)
    (pb : pyval) (w : world) (content : str) :
  files w odt = Some content ->
  convert odt co su ku pb w
  = (raw_parsing_mode <-
       parsing_mode pb (count_table_starts (text_lines content)) ;;
     main_pass (output_path odt co su) (S (next_handle w))
               (count_table_starts (text_lines content)) ku raw_parsing_mode ;;;
     close (S (next_handle w)))
      (prescanned odt w).
Proof.
  intros Hf. unfold convert. unfold bind at 1. unfold os_path_exists.
  rewrite Hf. cbn [negb]. unfold bind at 1. unfold open_ at 1.
  cbn [files log]. rewrite Hf.
  unfold bind at 1. rewrite for_lines_prescan.
  unfold bind at 1. unfold close at 1.
  unfold bind at 1. unfold open_ at 1.
  cbn [files handles next_handle trace log]. rewrite Hf.
  unfold pending_lines. cbn [handles handle_path files filter fst negb].
  rewrite Nat.eqb_refl. cbn [negb]. unfold text_of. rewrite Hf.
  unfold prescanned, text_of. rewrite Hf.
  rewrite <- !app_assoc. cbn [app]. reflexivity.
Qed.

Lemma convert_policy_error (odt : str) (co su : option str) (ku : bool)
    (pb : pyval) (w w0 : world) (content : str) (e : Odt2CsvException) :
  files w odt = Some content ->
  fst (parsing_mode pb (count_table_starts (text_lines content)) w0) = inl e ->
  convert odt co su ku pb w = (inl e, prescanned odt w).
Proof.
  intros Hf He. rewrite (convert_prefix odt co su ku pb w content Hf).
  unfold bind at 1.
  rewrite (parsing_mode_pure pb _ (prescanned odt w) w0), He. reflexivity.
Qed.

Lemma handle_path_filter (h k : nat) (hs : list (nat * path)) :
  h <> k ->
  handle_path h (filter (fun e => negb (fst e =? k)) hs) = handle_path h hs.
Proof.
  intros Hne. induction hs as [|[h' p] hs IH]; [reflexivity|].
  cbn [filter fst handle_path].
  destruct (h' =? k) eqn:Hk; cbn [negb].
  - apply Nat.eqb_eq in Hk. subst h'.
    destruct (k =? h) eqn:Hkh; [|exact IH].
    apply Nat.eqb_eq in Hkh. congruence.
  - cbn [handle_path]. rewrite IH. reflexivity.
Qed.

Lemma main_pass_unwritable (fo : str) (rd T : nat) (ku raw : bool)
    (w : world) :
  writable (files w) (node (files w) fo) = false ->
  main_pass fo rd T ku (Some raw) w = (inl (OSError fo), w).
Proof.
  intros Hw. unfold main_pass. unfold bind at 1. unfold open_ at 1.
  rewrite Hw. reflexivity.
Qed.

Lemma main_pass_run (fo odt : str) (rd T : nat) (ku raw : bool) (w : world) :
  handle_path rd (handles w) = Some odt ->
  rd < next_handle w ->
  writable (files w) (node (files w) fo) = true ->
  exists w',
    main_pass fo rd T ku (Some raw) w = (inr tt, w')
    /\ files w' fo
       = Some (concat (emitted raw T ku 0
                         (if str_eqb (node (files w) odt) (node (files w) fo)
                          then []
                          else text_lines (text_of (files w) odt))))
    /\ node (files w') = node (files w)
    /\ (forall k, k <> node (files w) fo ->
                  text (files w') k = text (files w) k)
    /\ handles w'
       = filter (fun e => negb (fst e =? S (next_handle w)))
           (filter (fun e => negb (fst e =? next_handle w)) (handles w))
    /\ next_handle w' = S (S (next_handle w)).
Proof.
  intros Hrd Hlt Hw. unfold main_pass.
  unfold bind at 1. unfold open_ at 1. rewrite Hw.
  unfold bind at 1. unfold close at 1.
  unfold bind at 1. unfold open_ at 1.
  cbn [files handles next_handle trace filter fst].
  assert (Hw' : writable (fs_set (files w) fo [])
                  (node (fs_set (files w) fo []) fo) = true) by exact Hw.
  rewrite Hw'.
  rewrite Nat.eqb_refl. cbn [negb].
  unfold bind at 1. unfold for_lines.
  set (h3 := next_handle w) in *. set (h4 := S h3).
  match goal with
  | |- context [fold_io _ (pending_lines rd ?w1) 0 ?w1] => set (wa := w1)
  end.
  assert (Hwo : handle_path h4 (handles wa) = Some fo).
  { subst wa. cbn [handles handle_path]. rewrite Nat.eqb_refl. reflexivity. }
  assert (Hfo : files wa fo = Some []).
  { subst wa. cbn [files]. rewrite fs_set_same.
    unfold text_of. rewrite fs_set_same. reflexivity. }
  assert (Hnd : node (files wa) = node (files w)) by reflexivity.
  assert (Hel : forall k, k <> node (files w) fo ->
                          text (files wa) k = text (files w) k).
  { intros k Hk. subst wa. cbn [files].
    rewrite fs_set_text_other by exact Hk.
    rewrite fs_set_text_other by exact Hk. reflexivity. }
  assert (Hpend : pending_lines rd wa
                  = if str_eqb (node (files w) odt) (node (files w) fo)
                    then []
                    else text_lines (text_of (files w) odt)).
  { unfold pending_lines.
    assert (Hhp : handle_path rd (handles wa) = Some odt).
    { subst wa. cbn [handles handle_path].
      replace (h4 =? rd) with false by (symmetry; apply Nat.eqb_neq; lia).
      rewrite handle_path_filter by lia. exact Hrd. }
    rewrite Hhp.
    destruct (str_eqb (node (files w) odt) (node (files w) fo)) eqn:Ho.
    - apply str_eqb_eq in Ho.
      assert (Ha : files wa odt = Some []).
      { rewrite <- Hfo. unfold lookup. rewrite Hnd, Ho. reflexivity. }
      unfold text_of. rewrite Ha. reflexivity.
    - apply str_eqb_neq in Ho.
      unfold text_of.
      rewrite (lookup_elsewhere (files w) (files wa) fo odt Hnd Hel Ho).
      reflexivity. }
  rewrite Hpend.
  destruct (fold_main raw T ku rd h4 fo
              (if str_eqb (node (files w) odt) (node (files w) fo) then []
               else text_lines (text_of (files w) odt)) 0 wa Hwo)
    as (enc' & w' & Hrun & Hh & Hn & Hnd' & _ & Ho & Ht & He).
  rewrite Hrun. unfold close.
  eexists. split; [reflexivity|].
  cbn [files handles next_handle trace].
  repeat split.
  - unfold text_of in Ht at 1 2. rewrite Hfo in Ht. cbn [app] in Ht.
    destruct (files w' fo) as [c|] eqn:Hc.
    + f_equal. exact Ht.
    + exfalso. apply He; [rewrite Hfo; discriminate|reflexivity].
  - rewrite Hnd'. exact Hnd.
  - intros k Hk. rewrite Ho by (rewrite Hnd; exact Hk). apply Hel. exact Hk.
  - rewrite Hh. subst wa. cbn [handles filter fst].
    subst h4. rewrite Nat.eqb_refl. reflexivity.
  - rewrite Hn. reflexivity.
Qed.

Lemma convert_unwritable (odt : str) (co su : option str) (ku raw : bool)
    (pb : pyval) (w w0 : world) (content : str) :
  files w odt = Some content ->
  fst (parsing_mode pb (count_table_starts (text_lines content)) w0)
  = inr (Some raw) ->
  writable (files w) (node (files w) (output_path odt co su)) = false ->
  convert odt co su ku pb w
  = (inl (OSError (output_path odt co su)), prescanned odt w).
Proof.
  intros Hf Hm Hw. rewrite (convert_prefix odt co su ku pb w content Hf).
  unfold bind at 1.
  rewrite (parsing_mode_pure pb _ (prescanned odt w) w0), Hm.
  unfold bind at 1.
  rewrite main_pass_unwritable by exact Hw. reflexivity.
Qed.

Lemma convert_success (odt : str) (co su : option str) (ku raw : bool)
    (pb : pyval) (w w0 : world) (content : str) :
  files w odt = Some content ->
  fst (parsing_mode pb (count_table_starts (text_lines content)) w0)
  = inr (Some raw) ->
  writable (files w) (node (files w) (output_path odt co su)) = true ->
  exists w',
    convert odt co su ku pb w = (inr tt, w')
    /\ files w' (output_path odt co su)
       = Some (concat (emitted raw (count_table_starts (text_lines content))
                         ku 0
                         (if str_eqb (node (files w) odt)
                                     (node (files w) (output_path odt co su))
                          then []
                          else text_lines content)))
    /\ node (files w') = node (files w)
    /\ (forall k, k <> node (files w) (output_path odt co su) ->
                  text (files w') k = text (files w) k)
    /\ handle_path (S (next_handle w)) (handles w') = None.
Proof.
  intros Hf Hm Hw. rewrite (convert_prefix odt co su ku pb w content Hf).
  unfold bind at 1.
  rewrite (parsing_mode_pure pb _ (prescanned odt w) w0), Hm.
  unfold bind at 1.
  destruct (main_pass_run (output_path odt co su) odt (S (next_handle w))
              (count_table_starts (text_lines content)) ku raw
              (prescanned odt w))
    as (w1 & Hrun & Hfo & Hnd & Hother & Hh & Hn).
  { cbn [prescanned handles handle_path]. rewrite Nat.eqb_refl. reflexivity. }
  { cbn [prescanned next_handle]. lia. }
  { exact Hw. }
  rewrite Hrun. unfold close. eexists. split; [reflexivity|].
  cbn [files handles].
  repeat split.
  - rewrite Hfo. cbn [prescanned files]. unfold text_of. rewrite Hf.
    reflexivity.
  - exact Hnd.
  - exact Hother.
  - generalize (handles w1). intros hs.
    induction hs as [|[h' p'] hs IH]; [reflexivity|].
    cbn [filter fst]. destruct (h' =? S (next_handle w)) eqn:Hk; cbn [negb].
    + exact IH.
    + cbn [handle_path]. rewrite Hk. exact IH.
Qed.

(** *** The behaviours *)

Lemma is_fail_not_new (pb : pyval) : is_fail pb = true -> is_new pb = false.
Proof.
  unfold is_fail, is_new. intros H.
  apply orb_prop in H as [H|H]; apply str_eqb_eq in H; rewrite H;
    reflexivity.
Qed.

Lemma is_raw_not_new (pb : pyval) : is_raw pb = true -> is_new pb = false.
Proof.
  unfold is_raw, is_new. intros H.
  apply orb_prop in H as [H|H]; apply str_eqb_eq in H; rewrite H;
    reflexivity.
Qed.

Lemma is_raw_not_fail (pb : pyval) : is_raw pb = true -> is_fail pb = false.
Proof.
  unfold is_raw, is_fail. intros H.
  apply orb_prop in H as [H|H]; apply str_eqb_eq in H; rewrite H;
    reflexivity.
Qed.

Lemma parsing_mode_cases (pb : pyval) (T : nat) (w : world) :
  fst (parsing_mode pb T w)
  = if is_new pb then inr (Some false)
    else if is_fail pb then
           if 1 <? T then inl (MultipleTableStartsError T)
           else inr (Some false)
    else if is_raw pb then inr (Some true)
    else inl (InvalidParserBehaviorError pb).
Proof.
  unfold parsing_mode, is_new, is_fail, is_raw.
  destruct (str_eqb (py_str pb) (lit "1") || str_eqb (py_str pb) (lit "new"));
    [reflexivity|].
  destruct (str_eqb (py_str pb) (lit "2") || str_eqb (py_str pb) (lit "fail")).
  - destruct (1 <? T); reflexivity.
  - destruct (str_eqb (py_str pb) (lit "3")
              || str_eqb (py_str pb) (lit "raw")); reflexivity.
Qed.

Lemma parsing_mode_outcome (pb : pyval) (T : nat) (w : world) :
  (exists raw, fst (parsing_mode pb T w) = inr (Some raw))
  \/ fst (parsing_mode pb T w) = inl (InvalidParserBehaviorError pb)
  \/ (1 < T /\ fst (parsing_mode pb T w) = inl (MultipleTableStartsError T)).
Proof.
  rewrite parsing_mode_cases.
  destruct (is_new pb); [left; eexists; reflexivity|].
  destruct (is_fail pb).
  - destruct (1 <? T) eqn:Hlt.
    + right; right. split; [apply Nat.ltb_lt; exact Hlt|reflexivity].
    + left; eexists; reflexivity.
  - destruct (is_raw pb); [left; eexists; reflexivity|].
    right; left. reflexivity.
Qed.

(** *** Which lines the main loop keeps *)

Lemma emitted_raw (T : nat) (ku : bool) (lines : list str) :
  forall enc, emitted true T ku enc lines = converted ku lines.
Proof.
  induction lines as [|l ls IH]; intros enc; [reflexivity|].
  cbn [emitted negb andb]. rewrite IH. reflexivity.
Qed.

Lemma emitted_reached (T : nat) (ku : bool) (lines : list str) :
  forall enc, T <= enc -> emitted false T ku enc lines = converted ku lines.
Proof.
  induction lines as [|l ls IH]; intros enc Hle; [reflexivity|].
  cbn [emitted negb andb].
  set (enc1 := if startswith table_start (strip l) then enc + 1 else enc).
  assert (Hle1 : T <= enc1)
    by (subst enc1; destruct (startswith table_start (strip l)); lia).
  replace (enc1 <? T) with false by (symmetry; apply Nat.ltb_ge; exact Hle1).
  rewrite (IH enc1 Hle1). reflexivity.
Qed.

Lemma existsb_table_start_count (lines : list str) :
  existsb is_table_start lines = negb (count_table_starts lines =? 0).
Proof.
  induction lines as [|l ls IH]; [reflexivity|].
  rewrite count_table_starts_cons. cbn [existsb]. rewrite IH.
  destruct (is_table_start l); reflexivity.
Qed.

Lemma emitted_new (T : nat) (ku : bool) (lines : list str) :
  forall enc,
    enc + count_table_starts lines = T ->
    emitted false T ku enc lines = converted ku (final_segment lines).
Proof.
  induction lines as [|l ls IH]; intros enc Hsum; [reflexivity|].
  rewrite count_table_starts_cons in Hsum. unfold is_table_start in Hsum.
  cbn [emitted negb andb final_segment].
  set (enc1 := if startswith table_start (strip l) then enc + 1 else enc)
    in *.
  assert (Hsum1 : enc1 + count_table_starts ls = T)
    by (subst enc1; destruct (startswith table_start (strip l)); lia).
  rewrite existsb_table_start_count.
  destruct (count_table_starts ls =? 0) eqn:Hz; cbn [negb].
  - apply Nat.eqb_eq in Hz.
    replace (enc1 <? T) with false by (symmetry; apply Nat.ltb_ge; lia).
    rewrite emitted_reached by lia. reflexivity.
  - apply Nat.eqb_neq in Hz.
    replace (enc1 <? T) with true by (symmetry; apply Nat.ltb_lt; lia).
    cbn [app]. apply IH. exact Hsum1.
Qed.

Lemma final_segment_last_marker (pre post : list str) (m : str) :
  is_table_start m = true ->
  existsb is_table_start post = false ->
  final_segment (pre ++ m :: post) = m :: post.
Proof.
  intros Hm Hpost. induction pre as [|l pre IH].
  - cbn [app final_segment]. rewrite Hpost. reflexivity.
  - cbn [app final_segment]. rewrite existsb_app. cbn [existsb].
    rewrite Hm, orb_true_r. exact IH.
Qed.

Lemma final_segment_no_marker (lines : list str) :
  existsb is_table_start lines = false -> final_segment lines = lines.
Proof.
  destruct lines as [|l ls]; [reflexivity|].
  cbn [existsb final_segment]. intros H.
  apply orb_false_elim in H as [_ H]. rewrite H. reflexivity.
Qed.

End Run.

(* ===================================================================== *)
(** ** The tokenizer and the row formatter                                 *)
(* ===================================================================== *)

Section Tokenizer.

Import Spec.

(** C10: the loop of [despacifier] terminates on every string.  A round
    that finds two adjacent spaces returns a strictly shorter string, so
    a budget of one more round than the string has characters is never
    exhausted: the loop leaves through its condition, with the value the
    total function [despacifier_loop] has, and [despacifier], [space2comma]
    and [tokenize_header] are defined from that value on every input. *)
Theorem despacifier_terminates (s : str) :
  length (replace two_spaces one_space s)
    + (if contains two_spaces s then 1 else 0) <= length s
  /\ despacifier_loop_fuel (S (length s)) s = Some (despacifier_loop s)
  /\ contains two_spaces (despacifier_loop s) = false
  /\ despacifier s = strip (despacifier_loop s)
  /\ space2comma s = replace one_space (lit ",") (despacifier s).
Proof.
  split; [apply replace_length|].
  split; [apply despacifier_loop_fuel_enough; lia|].
  split; [apply despacifier_loop_exit|].
  split; reflexivity.
Qed.

Lemma startswith_app (p s : str) :
  startswith p s = true -> exists rest, s = p ++ rest.
Proof.
  revert s. induction p as [|a p IH]; intros s H.
  - exists s. reflexivity.
  - destruct s as [|b s]; [discriminate|].
    cbn [startswith] in H. apply andb_prop in H as [Hab Hp].
    apply Ascii.eqb_eq in Hab. subst b.
    destruct (IH s Hp) as [rest ->]. exists rest. reflexivity.
Qed.

Lemma data_line_classified (keep_unit : bool) (l : str) :
  startswith (lit "#") l = false ->
  line_output keep_unit l = Some (space2comma l ++ [nl]).
Proof.
  intros H. unfold line_output.
  destruct l as [|c t]; [reflexivity|].
  cbn [startswith lit list_ascii_of_string] in H.
  rewrite andb_true_r in H. apply Ascii.eqb_neq in H.
  assert (H10 : str_eqb (slice_to 10 (c :: t)) (lit "# Columns:") = false).
  { apply str_eqb_neq. intros E. apply H. cbn in E. congruence. }
  assert (H8 : str_eqb (slice_to 8 (c :: t)) (lit "# Units:") = false).
  { apply str_eqb_neq. intros E. apply H. cbn in E. congruence. }
  assert (H1 : str_eqb (slice_to 1 (c :: t)) (lit "#") = false).
  { apply str_eqb_neq. intros E. apply H. cbn in E. congruence. }
  rewrite H10, H8, H1. reflexivity.
Qed.

(** C7: a line whose stripped text does not start with [#] is written as
    the line with its runs of spaces collapsed to one, its ends trimmed and
    every space left replaced by a comma, followed by a line feed; the text
    is not parsed.  In particular [1.0   2.0 3.0] gives [1.0,2.0,3.0]. *)
Theorem data_row_formatted (keep_unit : bool) (line : str) :
  startswith (lit "#") (strip line) = false ->
  line_output keep_unit (strip line) = Some (format_row line ++ [nl])
  /\ space2comma (strip line) = format_row line
  /\ space2comma (lit "1.0   2.0 3.0") = lit "1.0,2.0,3.0".
Proof.
  intros H. rewrite (data_line_classified keep_unit _ H).
  rewrite space2comma_stripped.
  split; [reflexivity|]. split; [reflexivity|].
  vm_compute. reflexivity.
Qed.

Lemma data_row_formatted_witness :
  line_output false (strip (lit "  1.0   2.0 3.0 "))
  = Some (format_row (lit "  1.0   2.0 3.0 ") ++ [nl])
  /\ space2comma (strip (lit "  1.0   2.0 3.0 "))
     = format_row (lit "  1.0   2.0 3.0 ")
  /\ space2comma (lit "1.0   2.0 3.0") = lit "1.0,2.0,3.0".
Proof.
  apply (data_row_formatted false (lit "  1.0   2.0 3.0 ")).
  vm_compute. reflexivity.
Defined.


Lemma columns_line_classified (keep_unit : bool) (l : str) :
  startswith (lit "# Columns:") l = true ->
  line_output keep_unit l = Some (tokenize_header (slice_from 10 l) ++ [nl]).
Proof.
  intros H. apply startswith_app in H as [rest ->].
  unfold line_output.
  assert (H10 : str_eqb (slice_to 10 (lit "# Columns:" ++ rest))
                        (lit "# Columns:") = true).
  { apply str_eqb_eq. cbn. reflexivity. }
  rewrite H10. reflexivity.
Qed.



End Tokenizer.

Section Headers.

Import Spec.

(** C5: the header [x{A B} y] has the three tokens [x], [A B] and [y]: the
    whole text between the braces, with its space, is one token. *)
Theorem tokenize_brace_group_with_space :
  tokenize_header (lit "x{A B} y")
  = csv_header [lit "x"; lit "A B"; lit "y"].
Proof. vm_compute. reflexivity. Qed.

Lemma tokenize_brace_group_not_split :
  tokenize_header (lit "x{A B} y") <> csv_header [lit "x"; lit "A"; lit "y"].
Proof. vm_compute. discriminate. Qed.

(** C1: on the header [x{a}b}c] the piece [a}b}c] has three sub-pieces.
    [tokenize_header] quotes the first, splits the second on spaces and
    drops the third, where the tokenization of section 4.1 splits every
    remaining sub-piece: the two differ. *)
Theorem tokenize_header_drops_later_subpieces :
  tokenize_header (lit "x{a}b}c") = csv_header [lit "x"; lit "a"; lit "b"]
  /\ tokenize (lit "x{a}b}c")
     = csv_header [lit "x"; lit "a"; lit "b"; lit "c"]
  /\ tokenize_header (lit "x{a}b}c") <> tokenize (lit "x{a}b}c").
Proof.
  split; [vm_compute; reflexivity|].
  split; [vm_compute; reflexivity|].
  vm_compute. discriminate.
Qed.

Lemma fold_left_append (f : str -> str) (l : list str) (acc : str) :
  fold_left (fun a s => a ++ f s) l acc = acc ++ concat (map f l).
Proof.
  revert acc. induction l as [|x l IH]; intros acc.
  - cbn. rewrite app_nil_r. reflexivity.
  - cbn [fold_left map concat]. rewrite IH, app_assoc. reflexivity.
Qed.

Lemma tokenize_piece_rendered (acc q : str) :
  tokenize_piece acc q = acc ++ rendered (piece_tokens_written q).
Proof.
  unfold tokenize_piece, piece_tokens_written, rendered.
  destruct (contains rbrace (strip q) && negb (startswith rbrace (strip q))).
  - destruct (remove_empty (split "}" (strip q))) as [|r0 [|r1 rest]].
    + cbn [length Nat.eqb Nat.ltb Nat.leb nth map concat].
      rewrite app_nil_r. reflexivity.
    + cbn [length Nat.eqb Nat.ltb Nat.leb nth map concat].
      rewrite app_nil_r. reflexivity.
    + cbn [length Nat.eqb Nat.ltb Nat.leb nth].
      rewrite (fold_left_append (fun s => dquote ++ s ++ dquote ++ lit ",")).
      cbn [map concat]. rewrite <- !app_assoc. reflexivity.
  - rewrite (fold_left_append
               (fun s => dquote
                         ++ (if startswith rbrace s then slice_from 1 s else s)
                         ++ dquote ++ lit ",")).
    rewrite map_map. reflexivity.
Qed.

Lemma fold_tokenize_piece (p : list str) (acc : str) :
  fold_left tokenize_piece p acc
  = acc ++ rendered (flat_map piece_tokens_written p).
Proof.
  revert acc. induction p as [|q p IH]; intros acc.
  - cbn. rewrite app_nil_r. reflexivity.
  - cbn [fold_left flat_map]. rewrite IH, tokenize_piece_rendered.
    unfold rendered. rewrite map_app, concat_app, app_assoc. reflexivity.
Qed.

Lemma drop_last_rendered (tokens : list str) :
  drop_last (rendered tokens) = join (lit ",") (map quoted tokens).
Proof.
  unfold drop_last, rendered.
  induction tokens as [|t ts IH]; [reflexivity|].
  cbn [map concat]. destruct ts as [|t' ts'].
  - cbn [map concat join]. rewrite app_nil_r.
    change (dquote ++ t ++ dquote ++ lit ",")
      with (dquote ++ t ++ dquote ++ [","%char]).
    rewrite !app_assoc. rewrite removelast_last.
    unfold quoted. rewrite app_assoc. reflexivity.
  - rewrite removelast_app.
    + rewrite IH. cbn [map join]. unfold quoted.
      rewrite <- !app_assoc. reflexivity.
    + cbn [map concat]. unfold dquote. discriminate.
Qed.

Lemma remove_empty_stripped (l : list str) (q : str) :
  In q (remove_empty l) -> strip q = q.
Proof.
  induction l as [|a l IH]; [intros []|].
  cbn [remove_empty]. destruct (length (strip a) =? 0).
  - exact IH.
  - intros [<-|H]; [apply strip_idem|exact (IH H)].
Qed.

(** [tokenize_header] writes the tokens of every piece, quoted and joined
    by commas. *)
Lemma tokenize_header_tokens (s : str) :
  tokenize_header s
  = join (lit ",")
      (map quoted
         (flat_map piece_tokens_written
            (remove_empty (split "{" (strip (collapse_spaces s)))))).
Proof.
  unfold tokenize_header. rewrite despacifier_collapse.
  rewrite fold_tokenize_piece. cbn [app]. apply drop_last_rendered.
Qed.

(** The two tokenizations agree as long as no piece has more than two
    sub-pieces, which is the case when the braces are balanced. *)
Lemma tokenize_header_agrees (s : str) :
  forallb (fun q => length (remove_empty (split "}" q)) <=? 2)
          (remove_empty (split "{" (strip (collapse_spaces s)))) = true ->
  tokenize_header s = tokenize s.
Proof.
  intros H. rewrite tokenize_header_tokens. unfold tokenize, header_tokens.
  do 2 f_equal.
  set (p := remove_empty (split "{" (strip (collapse_spaces s)))) in *.
  assert (Hs : forall q, In q p -> strip q = q)
    by (intros q; apply remove_empty_stripped).
  induction p as [|q p IH]; [reflexivity|].
  cbn [forallb] in H. apply andb_prop in H as [Hq Hp].
  cbn [flat_map]. rewrite IH; [|exact Hp|intros q' Hq'; apply Hs; now right].
  f_equal. unfold piece_tokens_written, piece_tokens.
  rewrite (Hs q) by now left.
  destruct (contains rbrace q && negb (startswith rbrace q)); [|reflexivity].
  destruct (remove_empty (split "}" q)) as [|r0 [|r1 [|r2 rest]]].
  - reflexivity.
  - reflexivity.
  - cbn [flat_map]. rewrite app_nil_r. reflexivity.
  - cbn in Hq. discriminate.
Qed.

End Headers.

(* ===================================================================== *)
(** ** The behaviours of [convert]                                         *)
(* ===================================================================== *)

Section Behaviours.

Import Spec Examples.

Lemma output_events_reads (h : nat) (ls : list str) :
  filter is_output_event (map (EvReadLine h) ls) = [].
Proof. induction ls as [|l ls IH]; [reflexivity|exact IH]. Qed.

Lemma lines_read_reads (h : nat) (ls : list str) :
  lines_read (map (EvReadLine h) ls) = ls.
Proof.
  unfold lines_read. induction ls as [|l ls IH]; [reflexivity|].
  cbn [map flat_map app]. rewrite IH. reflexivity.
Qed.

Lemma prescanned_output_events (odt : str) (w : world) :
  filter is_output_event (trace (prescanned odt w))
  = filter is_output_event (trace w).
Proof.
  cbn [prescanned trace]. rewrite !filter_app, output_events_reads.
  cbn [filter is_output_event app]. rewrite app_nil_r. reflexivity.
Qed.

Lemma prescanned_lines_read (odt : str) (w : world) :
  lines_read (trace (prescanned odt w))
  = lines_read (trace w) ++ text_lines (text_of (files w) odt).
Proof.
  cbn [prescanned trace]. unfold lines_read.
  rewrite !flat_map_app. fold (lines_read (map (EvReadLine (next_handle w))
                                 (text_lines (text_of (files w) odt)))).
  rewrite lines_read_reads. cbn [flat_map app]. rewrite app_nil_r.
  reflexivity.
Qed.

(** C2, with the conditions the code needs: under the behaviour [new] (or
    [1]), when the output path does not name the input file, [convert]
    returns exactly when the output file can be opened for writing, and
    when it returns it leaves in the output file exactly what the lines of
    the final table segment give, in their order: every line before the
    last table-start marker is skipped, and with lines [pre], a marker [m]
    and marker-free lines [post] nothing of [pre] is written. *)
Theorem convert_new_final_segment (w : world) (odt : str)
    (co su : option str) (ku : bool) (pb : pyval) (content : str) :
  is_new pb = true ->
  files w odt = Some content ->
  node (files w) odt <> node (files w) (output_path odt co su) ->
  fst (convert odt co su ku pb w)
  = (if writable (files w) (node (files w) (output_path odt co su))
     then inr tt
     else inl (OSError (output_path odt co su)))
  /\ (fst (convert odt co su ku pb w) = inr tt ->
      files (snd (convert odt co su ku pb w)) (output_path odt co su)
      = Some (concat (converted ku (final_segment (text_lines content))))
      /\ (forall pre m post,
            text_lines content = pre ++ m :: post ->
            is_table_start m = true ->
            existsb is_table_start post = false ->
            files (snd (convert odt co su ku pb w)) (output_path odt co su)
            = Some (concat (converted ku (m :: post))))
      /\ (forall p,
            node (files w) p <> node (files w) (output_path odt co su) ->
            files (snd (convert odt co su ku pb w)) p = files w p)).
Proof.
  intros Hnew Hf Hne.
  assert (Hm : fst (parsing_mode pb (count_table_starts (text_lines content))
                      w) = inr (Some false))
    by (rewrite parsing_mode_cases, Hnew; reflexivity).
  destruct (writable (files w) (node (files w) (output_path odt co su)))
    eqn:Hw.
  - destruct (convert_success odt co su ku false pb w w content Hf Hm Hw)
      as (w' & Hrun & Hfo & Hnd & Hother & _).
    rewrite Hrun. cbn [fst snd].
    apply str_eqb_neq in Hne. rewrite Hne in Hfo.
    rewrite emitted_new in Hfo by reflexivity.
    split; [reflexivity|]. intros _.
    split; [exact Hfo|]. split.
    + intros pre m post Hl Hmk Hpost. rewrite Hfo, Hl.
      rewrite (final_segment_last_marker pre post m Hmk Hpost). reflexivity.
    + intros p Hp.
      apply (lookup_elsewhere (files w) (files w') (output_path odt co su) p
               Hnd Hother Hp).
  - rewrite (convert_unwritable odt co su ku false pb w w content Hf Hm Hw).
    cbn [fst]. split; [reflexivity|discriminate].
Qed.

Lemma convert_new_final_segment_witness :
  files (snd (convert (lit "run.odt") None None true (PyStr (lit "new"))
                (one_file (lit "run.odt") two_tables)))
        (lit "run.csv")
  = Some (concat (converted true
                    (map (fun l => l ++ [nl])
                         (lit "# Table Start" :: second_segment)))).
Proof.
  assert (Hne : node (files (one_file (lit "run.odt") two_tables))
                     (lit "run.odt")
                <> node (files (one_file (lit "run.odt") two_tables))
                        (output_path (lit "run.odt") None None))
    by (vm_compute; discriminate).
  destruct (convert_new_final_segment
              (one_file (lit "run.odt") two_tables) (lit "run.odt") None None
              true (PyStr (lit "new")) two_tables eq_refl eq_refl Hne)
    as [_ H].
  destruct (H eq_refl) as (_ & Hseg & _).
  apply (Hseg (map (fun l => l ++ [nl]) first_segment)); vm_compute;
    reflexivity.
Defined.

(** When the output path is the input path, the input is truncated before
    the main loop reads it, and nothing is written. *)
Lemma convert_new_same_path :
  output_path (lit "run.csv") None None = lit "run.csv"
  /\ files (snd (convert (lit "run.csv") None None false (PyStr (lit "new"))
                   (one_file (lit "run.csv") one_table)))
           (lit "run.csv")
     = Some []
  /\ files (snd (convert (lit "run.csv") None None false (PyStr (lit "new"))
                   (one_file (lit "run.csv") one_table)))
           (lit "run.csv")
     <> Some (concat (converted false (final_segment (text_lines one_table)))).
Proof.
  split; [vm_compute; reflexivity|].
  split; [vm_compute; reflexivity|].
  vm_compute. discriminate.
Qed.

(** The same happens when the output path is another name of the input
    file, and an output file that cannot be opened makes [convert] raise
    the [OSError] of [open]. *)
Lemma convert_new_other_name_or_unwritable :
  files (snd (convert (lit "run.csv") (Some (lit "./run.csv")) None false
                (PyStr (lit "new")) (one_file (lit "run.csv") one_table)))
        (lit "run.csv")
  = Some []
  /\ fst (convert (lit "run.odt") (Some (lit "nodir/out.csv")) None false
            (PyStr (lit "new")) (one_file (lit "run.odt") one_table))
     = inl (OSError (lit "nodir/out.csv")).
Proof. split; vm_compute; reflexivity. Qed.

(** *** [fail] *)

Lemma fold_io_ext {S : Type} (b1 b2 : S -> str -> io S) (ls : list str) :
  (forall s l w, b1 s l w = b2 s l w) ->
  forall s w, fold_io b1 ls s w = fold_io b2 ls s w.
Proof.
  intros Hb. induction ls as [|l ls IH]; intros s w; [reflexivity|].
  cbn [fold_io]. unfold bind. rewrite Hb.
  destruct (b2 s l w) as [[e|s'] w']; [reflexivity|apply IH].
Qed.

Lemma main_body_no_marker (ku : bool) (wo enc : nat) (l : str) (w : world) :
  main_body false 0 ku wo enc l w = main_body true 0 ku wo enc l w.
Proof.
  unfold main_body. cbn [negb andb].
  replace ((if startswith table_start (strip l) then enc + 1 else enc) <? 0)
    with false by (symmetry; apply Nat.ltb_ge; lia).
  reflexivity.
Qed.

Lemma main_pass_no_marker (fo : str) (rd : nat) (ku : bool) (w : world) :
  main_pass fo rd 0 ku (Some false) w = main_pass fo rd 0 ku (Some true) w.
Proof.
  unfold main_pass, bind, for_lines.
  destruct (open_ fo ModeW w) as [[e|h] w1]; [reflexivity|].
  destruct (close h w1) as [[e|u] w2]; [reflexivity|].
  destruct (open_ fo ModeA w2) as [[e|h'] w3]; [reflexivity|].
  rewrite (fold_io_ext
             (fun s l w0 =>
                match (inr tt, log (EvReadLine rd l) w0) with
                | (inl e, w') => (inl e, w')
                | (inr _, w') => main_body false 0 ku h' s l w'
                end)
             (fun s l w0 =>
                match (inr tt, log (EvReadLine rd l) w0) with
                | (inl e, w') => (inl e, w')
                | (inr _, w') => main_body true 0 ku h' s l w'
                end)).
  - reflexivity.
  - intros s l w0. apply main_body_no_marker.
Qed.

(** C3, as the code has it: on a file with at most one table-start marker
    the behaviour [fail] (or [2]) does exactly what [new] does, so the lines
    ahead of a sole marker are skipped; it does what [raw] (or [3]) does
    when the file has no marker at all. *)
Theorem convert_fail_single_table (w : world) (odt : str)
    (co su : option str) (ku : bool) (pf pn pr : pyval) (content : str) :
  is_fail pf = true -> is_new pn = true -> is_raw pr = true ->
  files w odt = Some content ->
  count_table_starts (text_lines content) <= 1 ->
  convert odt co su ku pf w = convert odt co su ku pn w
  /\ (count_table_starts (text_lines content) = 0 ->
      convert odt co su ku pf w = convert odt co su ku pr w).
Proof.
  intros Hfail Hnew Hraw Hf HT.
  rewrite !(convert_prefix odt co su ku pf w content Hf).
  rewrite !(convert_prefix odt co su ku pn w content Hf).
  rewrite !(convert_prefix odt co su ku pr w content Hf).
  set (T := count_table_starts (text_lines content)) in *.
  assert (Hmode : forall pb (k : option bool -> io unit),
             bind (parsing_mode pb T) k (prescanned odt w)
             = match fst (parsing_mode pb T w) with
               | inl e => (inl e, prescanned odt w)
               | inr a => k a (prescanned odt w)
               end).
  { intros pb k. unfold bind.
    rewrite (parsing_mode_pure pb T (prescanned odt w) w). reflexivity. }
  rewrite !Hmode, !parsing_mode_cases.
  rewrite Hnew, (is_fail_not_new pf Hfail), Hfail.
  rewrite (is_raw_not_new pr Hraw), (is_raw_not_fail pr Hraw), Hraw.
  replace (1 <? T) with false by (symmetry; apply Nat.ltb_ge; exact HT).
  split; [reflexivity|].
  intros H0. rewrite H0. unfold bind.
  rewrite main_pass_no_marker. reflexivity.
Qed.

Lemma convert_fail_single_table_witness :
  convert (lit "run.odt") None None true (PyInt 2)
          (one_file (lit "run.odt") row_before_marker)
  = convert (lit "run.odt") None None true (PyStr (lit "new"))
            (one_file (lit "run.odt") row_before_marker).
Proof.
  apply (convert_fail_single_table
           (one_file (lit "run.odt") row_before_marker) (lit "run.odt")
           None None true (PyInt 2) (PyStr (lit "new")) (PyStr (lit "raw"))
           row_before_marker eq_refl eq_refl eq_refl eq_refl).
  vm_compute. lia.
Defined.

(** With a data row ahead of the only marker, [fail] drops the row and
    [raw] keeps it. *)
Lemma convert_fail_differs_from_raw :
  files (snd (convert (lit "run.odt") None None false (PyStr (lit "fail"))
                (one_file (lit "run.odt") row_before_marker)))
        (lit "run.csv")
  = Some (text [lit "3,4"])
  /\ files (snd (convert (lit "run.odt") None None false (PyStr (lit "raw"))
                   (one_file (lit "run.odt") row_before_marker)))
           (lit "run.csv")
     = Some (text [lit "1,2"; lit "3,4"])
  /\ files (snd (convert (lit "run.odt") None None false (PyStr (lit "fail"))
                   (one_file (lit "run.odt") row_before_marker)))
           (lit "run.csv")
     <> files (snd (convert (lit "run.odt") None None false
                      (PyStr (lit "raw"))
                      (one_file (lit "run.odt") row_before_marker)))
              (lit "run.csv").
Proof.
  split; [vm_compute; reflexivity|].
  split; [vm_compute; reflexivity|].
  vm_compute. discriminate.
Qed.

(** *** The three errors *)

(** C4: when [convert] raises one of its three errors (for a missing
    input, an unknown behaviour, or more than one table start under
    [fail]), the file system is the one the call started with, and the call
    has opened nothing for writing and written nothing; and under the
    behaviour [fail] (or [2]) a file with exactly two table-start markers
    makes it raise [MultipleTableStartsError] with the count [2]. *)
Theorem convert_error_no_output (w : world) (odt : str)
    (co su : option str) (ku : bool) (pb : pyval) :
  (forall (e : Odt2CsvException) w',
      convert odt co su ku pb w = (inl e, w') ->
      files w' = files w
      /\ filter is_output_event (trace w') = filter is_output_event (trace w)
      /\ (e = ODTFileNotFoundError odt
          \/ e = InvalidParserBehaviorError pb
          \/ exists n, 1 < n /\ e = MultipleTableStartsError n))
  /\ (forall content,
        is_fail pb = true ->
        files w odt = Some content ->
        count_table_starts (text_lines content) = 2 ->
        fst (convert odt co su ku pb w) = inl (MultipleTableStartsError 2)).
Proof.
  split.
  - intros e w' Hrun. destruct (files w odt) as [content|] eqn:Hf.
    + destruct (parsing_mode_outcome pb
                  (count_table_starts (text_lines content)) w)
        as [[raw Hm]|[Hm|[HT Hm]]].
      * destruct (writable (files w)
                    (node (files w) (output_path odt co su))) eqn:Hw.
        -- destruct (convert_success odt co su ku raw pb w w content Hf Hm Hw)
             as (w1 & Hok & _).
           rewrite Hok in Hrun. discriminate.
        -- rewrite (convert_unwritable odt co su ku raw pb w w content
                      Hf Hm Hw) in Hrun.
           discriminate.
      * rewrite (convert_policy_error odt co su ku pb w w content _ Hf Hm)
          in Hrun.
        injection Hrun as <- <-.
        split; [reflexivity|]. split; [apply prescanned_output_events|].
        right; left. reflexivity.
      * rewrite (convert_policy_error odt co su ku pb w w content _ Hf Hm)
          in Hrun.
        injection Hrun as <- <-.
        split; [reflexivity|]. split; [apply prescanned_output_events|].
        right; right. eexists. split; [exact HT|reflexivity].
    + rewrite (convert_not_found odt co su ku pb w Hf) in Hrun.
      injection Hrun as <- <-.
      split; [reflexivity|]. split; [|left; reflexivity].
      cbn [log trace]. rewrite filter_app. cbn [filter is_output_event].
      apply app_nil_r.
  - intros content Hfail Hf H2.
    rewrite (convert_policy_error odt co su ku pb w w content
               (MultipleTableStartsError 2) Hf); [reflexivity|].
    rewrite parsing_mode_cases, (is_fail_not_new pb Hfail), Hfail, H2.
    reflexivity.
Qed.

Lemma convert_error_no_output_witness :
  fst (convert (lit "run.odt") None None false (PyStr (lit "fail"))
         (one_file (lit "run.odt") two_tables))
  = inl (MultipleTableStartsError 2).
Proof.
  apply (convert_error_no_output
           (one_file (lit "run.odt") two_tables) (lit "run.odt") None None
           false (PyStr (lit "fail")))
    with (content := two_tables); vm_compute; reflexivity.
Defined.

(** C6, as the code has it: with a behaviour that is none of the recognized
    ones and an input that exists, [convert] raises
    [InvalidParserBehaviorError] once the counting loop has read every line
    of the input and the input has been reopened; the main loop has read
    nothing, nothing has been opened for writing and no file has changed. *)
Theorem convert_invalid_behavior_after_prescan (w : world) (odt : str)
    (co su : option str) (ku : bool) (pb : pyval) (content : str) :
  files w odt = Some content ->
  is_new pb = false -> is_fail pb = false -> is_raw pb = false ->
  convert odt co su ku pb w
  = (inl (InvalidParserBehaviorError pb), prescanned odt w)
  /\ lines_read (trace (prescanned odt w))
     = lines_read (trace w) ++ text_lines content
  /\ filter is_output_event (trace (prescanned odt w))
     = filter is_output_event (trace w)
  /\ files (prescanned odt w) = files w.
Proof.
  intros Hf Hn Hfl Hr.
  split; [|split; [|split]].
  - apply (convert_policy_error odt co su ku pb w w content _ Hf).
    rewrite parsing_mode_cases, Hn, Hfl, Hr. reflexivity.
  - rewrite prescanned_lines_read. unfold text_of. rewrite Hf. reflexivity.
  - apply prescanned_output_events.
  - reflexivity.
Qed.

Lemma convert_invalid_behavior_after_prescan_witness :
  convert (lit "run.odt") None None false (PyStr (lit "newest"))
          (one_file (lit "run.odt") one_table)
  = (inl (InvalidParserBehaviorError (PyStr (lit "newest"))),
     prescanned (lit "run.odt") (one_file (lit "run.odt") one_table)).
Proof.
  apply (convert_invalid_behavior_after_prescan
           (one_file (lit "run.odt") one_table) (lit "run.odt") None None
           false (PyStr (lit "newest")) one_table
           eq_refl eq_refl eq_refl eq_refl).
Defined.

(** With the behaviour [newest], both lines of the input have been read by
    the time the error is raised. *)
Lemma convert_invalid_behavior_reads_input :
  fst (convert (lit "run.odt") None None false (PyStr (lit "newest"))
         (one_file (lit "run.odt") one_table))
  = inl (InvalidParserBehaviorError (PyStr (lit "newest")))
  /\ lines_read
       (trace (snd (convert (lit "run.odt") None None false
                      (PyStr (lit "newest"))
                      (one_file (lit "run.odt") one_table))))
     = [lit "# Table Start" ++ [nl]; lit "1 2" ++ [nl]]
  /\ lines_read
       (trace (snd (convert (lit "run.odt") None None false
                      (PyStr (lit "newest"))
                      (one_file (lit "run.odt") one_table))))
     <> [].
Proof.
  split; [vm_compute; reflexivity|].
  split; [vm_compute; reflexivity|].
  vm_compute. discriminate.
Qed.

(** Whatever the input, an error raised while [raw_parsing_mode] is decided
    leaves the reopened reader in the table of open file objects. *)
Lemma policy_error_reader_open (w : world) (odt : str) (co su : option str)
    (ku : bool) (pb : pyval) (content : str) (e : Odt2CsvException) :
  files w odt = Some content ->
  fst (parsing_mode pb (count_table_starts (text_lines content)) w) = inl e ->
  handle_path (S (next_handle w)) (handles (snd (convert odt co su ku pb w)))
  = Some odt.
Proof.
  intros Hf He.
  rewrite (convert_policy_error odt co su ku pb w w content e Hf He).
  cbn [snd prescanned handles handle_path]. rewrite Nat.eqb_refl.
  reflexivity.
Qed.

(** C9: [convert] closes every file object on the way to a normal return,
    but the two errors raised after the input is reopened leave the
    reopened reader open: the [raise] statements of lines 179 and 185 come
    before any [close] of it. *)
Theorem convert_error_leaves_reader_open :
  handles (snd (convert (lit "run.odt") None None false (PyStr (lit "newest"))
                  (one_file (lit "run.odt") one_table)))
  = [(1, lit "run.odt")]
  /\ handles (snd (convert (lit "run.odt") None None false (PyInt 2)
                     (one_file (lit "run.odt") two_tables)))
     = [(1, lit "run.odt")]
  /\ handles (snd (convert (lit "run.odt") None None false (PyInt 2)
                     (one_file (lit "run.odt") one_table)))
     = [].
Proof.
  split; [vm_compute; reflexivity|].
  split; vm_compute; reflexivity.
Qed.

End Behaviours.

(* ===================================================================== *)
(** ** Further properties of the string helpers                            *)
(* ===================================================================== *)

Section Helpers.

Import Spec.

Lemma collapse_keeps_head (t : str) :
  startswith one_space (collapse_spaces t) = startswith one_space t.
Proof.
  induction t as [|c t IH]; [reflexivity|].
  destruct (Ascii.eqb c sp && startswith one_space t) eqn:Hh.
  - cbn [collapse_spaces]. rewrite Hh, IH.
    apply startswith_space_cases in Hh as [-> [t' ->]]. reflexivity.
  - rewrite (collapse_other _ _ Hh). reflexivity.
Qed.

Lemma collapse_no_double (s : str) :
  contains two_spaces (collapse_spaces s) = false.
Proof.
  induction s as [|c t IH]; [reflexivity|].
  destruct (Ascii.eqb c sp && startswith one_space t) eqn:Hh.
  - cbn [collapse_spaces]. rewrite Hh. exact IH.
  - rewrite (collapse_other _ _ Hh), contains_two_spaces_cons.
    rewrite collapse_keeps_head, Hh, IH. reflexivity.
Qed.

Lemma collapse_length (s : str) : length (collapse_spaces s) <= length s.
Proof.
  induction s as [|c t IH]; [reflexivity|].
  cbn [collapse_spaces].
  destruct (Ascii.eqb c sp && startswith one_space t); cbn [length]; lia.
Qed.

Lemma lstrip_length (s : str) : length (lstrip s) <= length s.
Proof.
  induction s as [|c t IH]; [reflexivity|].
  cbn [lstrip]. destruct (isspace c); cbn [length]; lia.
Qed.

Lemma rstrip_length (s : str) : length (rstrip s) <= length s.
Proof.
  induction s as [|c t IH]; [reflexivity|].
  rewrite rstrip_cons. destruct (rstrip t).
  - destruct (isspace c); cbn [length]; lia.
  - cbn [length] in *. lia.
Qed.

Lemma strip_length (s : str) : length (strip s) <= length s.
Proof.
  unfold strip. pose proof (rstrip_length (lstrip s)).
  pose proof (lstrip_length s). lia.
Qed.

(** X1: whatever the input, [despacifier] returns a string with no two
    adjacent spaces and no blank character at either end (stripping it
    again changes nothing), and never a longer string. *)
Theorem despacifier_normal_form (s : str) :
  contains two_spaces (despacifier s) = false
  /\ strip (despacifier s) = despacifier s
  /\ length (despacifier s) <= length s.
Proof.
  rewrite despacifier_collapse. split; [|split].
  - rewrite strip_collapse. apply collapse_no_double.
  - apply strip_idem.
  - pose proof (strip_length (collapse_spaces s)).
    pose proof (collapse_length s). lia.
Qed.

Lemma despacifier_twice (s : str) :
  despacifier (despacifier s) = despacifier s.
Proof.
  rewrite !despacifier_collapse.
  rewrite (strip_collapse (strip (collapse_spaces s))), strip_idem.
  rewrite <- strip_collapse.
  rewrite (collapse_fixed (collapse_spaces s) (collapse_no_double s)).
  reflexivity.
Qed.

(** X2: [despacifier] is idempotent, so cleaning the blanks of a line
    beforehand changes neither what [space2comma] nor what [tokenize_header]
    returns for it. *)
Theorem despacifier_idempotent (s : str) :
  despacifier (despacifier s) = despacifier s
  /\ space2comma (despacifier s) = space2comma s
  /\ tokenize_header (despacifier s) = tokenize_header s.
Proof.
  split; [apply despacifier_twice|].
  unfold space2comma, tokenize_header. rewrite despacifier_twice.
  split; reflexivity.
Qed.

Lemma remove_empty_app (a b : list str) :
  remove_empty (a ++ b) = remove_empty a ++ remove_empty b.
Proof.
  induction a as [|x a IH]; [reflexivity|].
  cbn [app remove_empty]. destruct (length (strip x) =? 0); rewrite IH;
    reflexivity.
Qed.

(** X3: every item [remove_empty] returns is non-empty and has no blank
    character at either end; the items keep their order (the function
    distributes over concatenation), there are never more of them than in
    the input, and a second pass removes nothing. *)
Theorem remove_empty_items (l l' : list str) :
  Forall (fun x => x <> [] /\ strip x = x) (remove_empty l)
  /\ remove_empty (l ++ l') = remove_empty l ++ remove_empty l'
  /\ length (remove_empty l) <= length l
  /\ remove_empty (remove_empty l) = remove_empty l.
Proof.
  split; [|split; [apply remove_empty_app|split]].
  - induction l as [|a l IH]; [constructor|].
    cbn [remove_empty]. destruct (length (strip a) =? 0) eqn:Hz; [exact IH|].
    constructor; [|exact IH]. split; [|apply strip_idem].
    intros E. rewrite E in Hz. discriminate.
  - induction l as [|a l IH]; [reflexivity|].
    cbn [remove_empty]. destruct (length (strip a) =? 0); cbn [length]; lia.
  - induction l as [|a l IH]; [reflexivity|].
    cbn [remove_empty]. destruct (length (strip a) =? 0) eqn:Hz; [exact IH|].
    cbn [remove_empty]. rewrite strip_idem, Hz, IH. reflexivity.
Qed.

(** X4: the text [space2comma] returns has no space left in it, and is as
    long as what [despacifier] returns: every space that survives the
    collapsing and trimming becomes exactly one comma. *)
Theorem space2comma_no_space (s : str) :
  ~ In sp (space2comma s)
  /\ length (space2comma s) = length (despacifier s).
Proof.
  unfold space2comma. rewrite replace_space_comma. split.
  - intros H. apply in_map_iff in H as (c & Hc & _).
    unfold comma_for_space in Hc.
    destruct (Ascii.eqb c sp) eqn:E; [discriminate|].
    apply Ascii.eqb_neq in E. congruence.
  - apply length_map.
Qed.

End Helpers.

Section Characters.

Import Spec.

Variable P : ascii -> Prop.

Lemma lstrip_Forall (s : str) : Forall P s -> Forall P (lstrip s).
Proof.
  induction 1 as [|c t Hc Ht IH]; [constructor|].
  cbn [lstrip]. destruct (isspace c); [exact IH|now constructor].
Qed.

Lemma rstrip_Forall (s : str) : Forall P s -> Forall P (rstrip s).
Proof.
  induction 1 as [|c t Hc Ht IH]; [constructor|].
  rewrite rstrip_cons. destruct (rstrip t).
  - destruct (isspace c); [constructor|now constructor].
  - now constructor.
Qed.

Lemma strip_Forall (s : str) : Forall P s -> Forall P (strip s).
Proof. intros H. apply rstrip_Forall, lstrip_Forall, H. Qed.

Lemma collapse_Forall (s : str) : Forall P s -> Forall P (collapse_spaces s).
Proof.
  induction 1 as [|c t Hc Ht IH]; [constructor|].
  cbn [collapse_spaces].
  destruct (Ascii.eqb c sp && startswith one_space t);
    [exact IH|now constructor].
Qed.

Lemma split_nonempty (sep : ascii) (s : str) : split sep s <> [].
Proof.
  destruct s as [|c t]; [discriminate|].
  cbn [split]. destruct (Ascii.eqb c sep); [discriminate|].
  destruct (split sep t); discriminate.
Qed.

Lemma split_Forall (sep : ascii) (s : str) :
  Forall P s -> Forall (Forall P) (split sep s).
Proof.
  induction 1 as [|c t Hc Ht IH]; [repeat constructor|].
  cbn [split]. destruct (Ascii.eqb c sep).
  - constructor; [constructor|exact IH].
  - destruct (split sep t) as [|p ps]; [repeat constructor; exact Hc|].
    inversion IH; subst. constructor; [now constructor|assumption].
Qed.

Lemma remove_empty_Forall (l : list str) :
  Forall (Forall P) l -> Forall (Forall P) (remove_empty l).
Proof.
  induction 1 as [|a l Ha Hl IH]; [constructor|].
  cbn [remove_empty]. destruct (length (strip a) =? 0); [exact IH|].
  constructor; [apply strip_Forall, Ha|exact IH].
Qed.

Lemma join_Forall (sep : str) (l : list str) :
  Forall P sep -> Forall (Forall P) l -> Forall P (join sep l).
Proof.
  intros Hsep. induction 1 as [|a l Ha Hl IH]; [constructor|].
  cbn [join]. destruct l as [|b l']; [exact Ha|].
  apply Forall_app. split; [exact Ha|].
  apply Forall_app. split; [exact Hsep|exact IH].
Qed.

End Characters.

Section Braces.

Import Spec.

Lemma split_pieces_without_sep (sep : ascii) (s : str) :
  Forall (Forall (fun c => c <> sep)) (split sep s).
Proof.
  induction s as [|c t IH]; [repeat constructor|].
  cbn [split]. destruct (Ascii.eqb c sep) eqn:E.
  - constructor; [constructor|exact IH].
  - apply Ascii.eqb_neq in E.
    destruct (split sep t) as [|p ps]; [repeat constructor; exact E|].
    inversion IH; subst. constructor; [now constructor|assumption].
Qed.

Lemma split_absent (sep : ascii) (s : str) :
  Forall (fun c => c <> sep) s -> split sep s = [s].
Proof.
  induction 1 as [|c t Hc Ht IH]; [reflexivity|].
  cbn [split]. apply Ascii.eqb_neq in Hc. rewrite Hc, IH. reflexivity.
Qed.

Lemma contains_absent (c : ascii) (s : str) :
  Forall (fun a => a <> c) s -> contains [c] s = false.
Proof.
  induction 1 as [|a t Ha Ht IH]; [reflexivity|].
  cbn [contains startswith]. rewrite IH.
  apply not_eq_sym, Ascii.eqb_neq in Ha. rewrite Ha. reflexivity.
Qed.

Lemma strip_leading_rbrace_Forall (P : ascii -> Prop) (t : str) :
  Forall P t -> Forall P (strip_leading_rbrace t).
Proof.
  intros H. unfold strip_leading_rbrace.
  destruct (startswith rbrace t); [|exact H].
  destruct t as [|c t']; [constructor|]. inversion H; subst. assumption.
Qed.

Lemma strip_leading_rbrace_absent (t : str) :
  Forall (fun c => c <> "}"%char) t -> strip_leading_rbrace t = t.
Proof.
  intros H. unfold strip_leading_rbrace.
  destruct t as [|c t']; [reflexivity|].
  inversion H as [|? ? Hc _]; subst.
  cbn [startswith rbrace lit list_ascii_of_string].
  apply not_eq_sym, Ascii.eqb_neq in Hc. rewrite Hc. reflexivity.
Qed.

Lemma piece_tokens_written_Forall (P : ascii -> Prop) (q : str) :
  Forall P q -> Forall (Forall P) (piece_tokens_written q).
Proof.
  intros Hq. unfold piece_tokens_written.
  pose proof (strip_Forall P q Hq) as Hs.
  destruct (contains rbrace (strip q) && negb (startswith rbrace (strip q))).
  - pose proof (remove_empty_Forall P _ (split_Forall P "}" _ Hs)) as Hr.
    destruct (remove_empty (split "}" (strip q))) as [|r0 [|r1 rest]].
    + repeat constructor.
    + exact Hr.
    + inversion Hr as [|? ? H0 Hr']; subst.
      inversion Hr' as [|? ? H1 _]; subst.
      constructor; [exact H0|]. apply split_Forall. exact H1.
  - pose proof (remove_empty_Forall P _ (split_Forall P sp _ Hs)) as Hr.
    induction Hr as [|t ts Ht Hts IH]; [constructor|].
    cbn [map]. constructor; [|exact IH].
    apply strip_leading_rbrace_Forall. exact Ht.
Qed.

(** X5: the text [tokenize_header] returns never contains an opening
    brace. *)
Theorem tokenize_header_no_opening_brace (s : str) :
  ~ In "{"%char (tokenize_header s).
Proof.
  rewrite tokenize_header_tokens.
  set (P := fun c : ascii => c <> "{"%char).
  assert (H : Forall P
                (join (lit ",")
                   (map quoted
                      (flat_map piece_tokens_written
                         (remove_empty
                            (split "{" (strip (collapse_spaces s)))))))).
  { apply join_Forall; [repeat constructor; discriminate|].
    pose proof (remove_empty_Forall P _
                  (split_pieces_without_sep "{" (strip (collapse_spaces s))))
      as Hp.
    induction Hp as [|q p Hq Hp IH]; [constructor|].
    cbn [flat_map]. rewrite map_app. apply Forall_app. split; [|exact IH].
    pose proof (piece_tokens_written_Forall P q Hq) as Ht.
    induction Ht as [|t ts Ht Hts IHt]; [constructor|].
    cbn [map]. constructor; [|exact IHt].
    unfold quoted. apply Forall_app. split; [repeat constructor; discriminate|].
    apply Forall_app. split; [exact Ht|repeat constructor; discriminate]. }
  intros Hin. rewrite Forall_forall in H. exact (H _ Hin eq_refl).
Qed.

(** X6: for a header with no brace in it, [tokenize_header] returns its
    space-separated words, each in double quotes, joined by commas with no
    comma at the end; a blank header gives the empty string. *)
Theorem tokenize_header_without_braces (s : str) :
  Forall (fun c => c <> "{"%char) s ->
  Forall (fun c => c <> "}"%char) s ->
  tokenize_header s
  = join (lit ",") (map quoted (remove_empty (split sp (despacifier s)))).
Proof.
  intros Ho Hc. rewrite tokenize_header_tokens, despacifier_collapse.
  set (d := strip (collapse_spaces s)).
  assert (Hdo : Forall (fun c => c <> "{"%char) d)
    by (apply strip_Forall, collapse_Forall, Ho).
  assert (Hdc : Forall (fun c => c <> "}"%char) d)
    by (apply strip_Forall, collapse_Forall, Hc).
  assert (Hd : strip d = d) by apply strip_idem.
  rewrite (split_absent "{" d Hdo). cbn [remove_empty]. rewrite Hd.
  destruct d as [|c t] eqn:Ed; [reflexivity|].
  cbn [length Nat.eqb flat_map]. rewrite app_nil_r.
  unfold piece_tokens_written. rewrite Hd.
  change rbrace with ["}"%char].
  rewrite (contains_absent "}" (c :: t) Hdc). cbn [andb].
  do 2 f_equal.
  pose proof (remove_empty_Forall _ _ (split_Forall _ sp _ Hdc)) as Hr.
  induction Hr as [|x xs Hx Hxs IH]; [reflexivity|].
  cbn [map]. rewrite IH, (strip_leading_rbrace_absent x Hx). reflexivity.
Qed.

Lemma tokenize_header_without_braces_witness :
  tokenize_header (lit " Oxs_TimeDriver::Iteration   Oxs_TimeDriver::Stage ")
  = join (lit ",")
      (map quoted
         (remove_empty
            (split sp
               (despacifier
                  (lit " Oxs_TimeDriver::Iteration   Oxs_TimeDriver::Stage "))))).
Proof.
  apply tokenize_header_without_braces;
    repeat constructor; discriminate.
Defined.

Lemma strip_head_not_space (q : str) (c : ascii) (t : str) :
  strip q = c :: t -> isspace c = false.
Proof.
  unfold strip. intros H. pose proof (lstrip_head q) as Hh.
  apply rstrip_head in H as [u Hu]. rewrite Hu in Hh. exact Hh.
Qed.

Lemma rstrip_keeps_nonspace (c : ascii) (t : str) :
  isspace c = false -> rstrip (c :: t) <> [].
Proof.
  intros Hc. rewrite rstrip_cons. destruct (rstrip t); [|discriminate].
  rewrite Hc. discriminate.
Qed.

(** X7: in [tokenize_header] the list [r] of the sub-pieces of a piece that
    contains a closing brace without starting with it is never empty: the
    alternative of line 100 that writes an empty quoted token is never
    taken, and the first token written for such a piece is [r[0]], which is
    not empty. *)
Theorem brace_piece_has_first_token (q : str) :
  contains rbrace (strip q) && negb (startswith rbrace (strip q)) = true ->
  (length (remove_empty (split "}" (strip q))) =? 0) = false
  /\ nth 0 (remove_empty (split "}" (strip q))) [] <> [].
Proof.
  intros H. apply andb_prop in H as [Hc Hs].
  destruct (strip q) as [|c t] eqn:Eq; [discriminate|].
  pose proof (strip_head_not_space q c t Eq) as Hsp.
  cbn [startswith rbrace lit list_ascii_of_string] in Hs.
  rewrite andb_true_r in Hs. apply negb_true_iff in Hs.
  rewrite Ascii.eqb_sym in Hs.
  cbn [split]. rewrite Hs.
  assert (Hp : forall p, strip (c :: p) <> []).
  { intros p. unfold strip. cbn [lstrip]. rewrite Hsp.
    apply rstrip_keeps_nonspace. exact Hsp. }
  destruct (split "}" t) as [|p ps]; cbn [remove_empty].
  - specialize (Hp []). destruct (strip [c]); [congruence|].
    cbn. split; [reflexivity|discriminate].
  - specialize (Hp p). destruct (strip (c :: p)); [congruence|].
    cbn. split; [reflexivity|discriminate].
Qed.

Lemma brace_piece_has_first_token_witness :
  (length (remove_empty (split "}" (strip (lit "A B} y")))) =? 0) = false
  /\ nth 0 (remove_empty (split "}" (strip (lit "A B} y")))) [] <> [].
Proof.
  apply (brace_piece_has_first_token (lit "A B} y")). vm_compute. reflexivity.
Defined.

End Braces.

(* ===================================================================== *)
(** ** Further properties of [convert]                                     *)
(* ===================================================================== *)

Section Driver.

Import Spec Examples.

Lemma str_eqb_cons (a b : ascii) (x y : str) :
  str_eqb (a :: x) (b :: y) = Ascii.eqb a b && str_eqb x y.
Proof.
  destruct (Ascii.eqb a b) eqn:Eab; destruct (str_eqb x y) eqn:Exy; cbn [andb].
  - apply Ascii.eqb_eq in Eab. apply str_eqb_eq in Exy.
    apply str_eqb_eq. congruence.
  - apply str_eqb_neq in Exy. apply str_eqb_neq. congruence.
  - apply Ascii.eqb_neq in Eab. apply str_eqb_neq. congruence.
  - apply Ascii.eqb_neq in Eab. apply str_eqb_neq. congruence.
Qed.

Lemma startswith_firstn (p l : str) :
  str_eqb (firstn (length p) l) p = startswith p l.
Proof.
  revert l. induction p as [|a p IH]; intros l.
  - reflexivity.
  - destruct l as [|b l]; [reflexivity|].
    cbn [length firstn startswith]. rewrite str_eqb_cons, IH.
    rewrite (Ascii.eqb_sym a b). reflexivity.
Qed.

Lemma line_output_by_prefix (ku : bool) (l : str) :
  line_output ku l
  = if startswith (lit "# Columns:") l
    then Some (tokenize_header (slice_from 10 l) ++ [nl])
    else if startswith (lit "# Units:") l
         then (if ku then Some (tokenize_header (slice_from 8 l) ++ [nl])
               else None)
         else if startswith (lit "#") l then None
              else Some (space2comma l ++ [nl]).
Proof.
  unfold line_output, slice_to.
  rewrite <- (startswith_firstn (lit "# Columns:") l).
  rewrite <- (startswith_firstn (lit "# Units:") l).
  rewrite <- (startswith_firstn (lit "#") l). reflexivity.
Qed.

(** X8: a line whose stripped text starts with [#] without being a
    [# Columns:] or a [# Units:] line (a table-start marker, for one) makes
    the main loop write nothing and change nothing, whatever the behaviour
    and whatever [keep_unit]. *)
Theorem comment_line_writes_nothing (raw : bool) (T : nat) (ku : bool)
    (wo enc : nat) (line : str) (w : world) :
  startswith (lit "#") (strip line) = true ->
  startswith (lit "# Columns:") (strip line) = false ->
  startswith (lit "# Units:") (strip line) = false ->
  line_output ku (strip line) = None
  /\ snd (main_body raw T ku wo enc line w) = w.
Proof.
  intros Hh Hc Hu.
  assert (Hn : line_output ku (strip line) = None)
    by (rewrite line_output_by_prefix, Hc, Hu, Hh; reflexivity).
  split; [exact Hn|]. unfold main_body. rewrite Hn.
  destruct (negb raw && _); reflexivity.
Qed.

Lemma comment_line_writes_nothing_witness :
  line_output true (strip (lit "# Table Start")) = None
  /\ snd (main_body true 1 true 3 0 (lit "# Table Start")
            (one_file (lit "run.odt") one_table))
     = one_file (lit "run.odt") one_table.
Proof.
  apply (comment_line_writes_nothing true 1 true 3 0 (lit "# Table Start")
           (one_file (lit "run.odt") one_table));
    vm_compute; reflexivity.
Defined.

Lemma slice_last_suffix (x ext : str) :
  slice_last (length ext) (x ++ ext) = ext.
Proof.
  unfold slice_last. rewrite length_app.
  replace (length x + length ext - length ext) with (length x + 0) by lia.
  rewrite skipn_app, Nat.add_0_r, skipn_all.
  replace (length x - length x) with 0 by lia. reflexivity.
Qed.

(** X9: the path [convert] writes to always ends in [.csv]; an explicit
    [csv_output] that already ends in [.csv] is used as it is, and
    otherwise gets [.csv] appended, whatever the input path and the
    suffix. *)
Theorem output_path_ends_in_csv (odt : str) (co su : option str) :
  slice_last 4 (output_path odt co su) = lit ".csv"
  /\ (forall fo, co = Some fo ->
        output_path odt co su
        = if str_eqb (slice_last 4 fo) (lit ".csv") then fo
          else fo ++ lit ".csv").
Proof.
  split.
  - unfold output_path. destruct co as [fo|].
    + destruct (str_eqb (slice_last 4 fo) (lit ".csv")) eqn:E; cbn [negb].
      * apply str_eqb_eq. exact E.
      * apply (slice_last_suffix fo (lit ".csv")).
    + destruct su as [suffix|].
      * rewrite app_assoc. apply (slice_last_suffix _ (lit ".csv")).
      * apply (slice_last_suffix _ (lit ".csv")).
  - intros fo ->. unfold output_path.
    destruct (str_eqb (slice_last 4 fo) (lit ".csv")); reflexivity.
Qed.

Lemma output_path_ends_in_csv_witness :
  output_path (lit "run.odt") (Some (lit "out/table.txt")) (Some (lit "_v2"))
  = if str_eqb (slice_last 4 (lit "out/table.txt")) (lit ".csv")
    then lit "out/table.txt"
    else lit "out/table.txt" ++ lit ".csv".
Proof.
  apply (output_path_ends_in_csv (lit "run.odt")
           (Some (lit "out/table.txt")) (Some (lit "_v2"))).
  reflexivity.
Defined.

Lemma contains_middle (p a b : str) : contains p (a ++ p ++ b) = true.
Proof.
  induction a as [|c a IH].
  - cbn [app]. assert (H : startswith p (p ++ b) = true).
    { induction p as [|x p IHp]; [reflexivity|].
      cbn [app startswith]. rewrite Ascii.eqb_refl. exact IHp. }
    destruct (p ++ b); cbn [contains]; rewrite H; reflexivity.
  - cbn [app contains]. rewrite IH. apply orb_true_r.
Qed.

(** X10: the message of each of the three exceptions contains the argument
    the exception was raised with: the behaviour as [str] prints it, the
    number of table starts in decimal, the path of the input. *)
Theorem exn_repr_carries_arg (e : Odt2CsvException) :
  contains (match e with
            | InvalidParserBehaviorError arg => py_str arg
            | MultipleTableStartsError arg => str_of_int (Z.of_nat arg)
            | ODTFileNotFoundError arg => arg
            end) (exn_repr e) = true.
Proof.
  destruct e as [arg|arg|arg]; cbn [exn_repr]; apply contains_middle.
Qed.

End Driver.

Section Outcomes.

Import Spec Examples.


(** X12: [convert] never changes a file other than the one its output path
    names, whether it returns or raises: every path that names another file
    still gives the text it gave before. *)
Theorem convert_touches_only_output (w : world) (odt : str)
    (co su : option str) (ku : bool) (pb : pyval) (p : path) :
  node (files w) p <> node (files w) (output_path odt co su) ->
  files (snd (convert odt co su ku pb w)) p = files w p.
Proof.
  intros Hp. destruct (files w odt) as [content|] eqn:Hf.
  - destruct (parsing_mode_outcome pb
                (count_table_starts (text_lines content)) w)
      as [[raw Hm]|[Hm|[HT Hm]]].
    + destruct (writable (files w) (node (files w) (output_path odt co su)))
        eqn:Hw.
      * destruct (convert_success odt co su ku raw pb w w content Hf Hm Hw)
          as (w1 & Hok & _ & Hnd & Hother & _).
        rewrite Hok.
        apply (lookup_elsewhere (files w) (files w1) (output_path odt co su)
                 p Hnd Hother Hp).
      * rewrite (convert_unwritable odt co su ku raw pb w w content Hf Hm Hw).
        reflexivity.
    + rewrite (convert_policy_error odt co su ku pb w w content _ Hf Hm).
      reflexivity.
    + rewrite (convert_policy_error odt co su ku pb w w content _ Hf Hm).
      reflexivity.
  - rewrite (convert_not_found odt co su ku pb w Hf). reflexivity.
Qed.

Lemma convert_touches_only_output_witness :
  files (snd (convert (lit "run.odt") None None true (PyInt 3)
                (one_file (lit "run.odt") two_tables)))
        (lit "./run.odt")
  = files (one_file (lit "run.odt") two_tables) (lit "./run.odt").
Proof.
  apply (convert_touches_only_output
           (one_file (lit "run.odt") two_tables) (lit "run.odt") None None
           true (PyInt 3) (lit "./run.odt")).
  vm_compute. discriminate.
Defined.

(** X13: when the input does not exist, [convert] opens no file, reads no
    line and changes no file before it raises: all it has done is the
    existence test. *)
Theorem convert_missing_input (w : world) (odt : str) (co su : option str)
    (ku : bool) (pb : pyval) :
  files w odt = None ->
  convert odt co su ku pb w
  = (inl (ODTFileNotFoundError odt),
     mkWorld (files w) (handles w) (next_handle w)
             (trace w ++ [EvExists odt])).
Proof. intros Hf. apply (convert_not_found odt co su ku pb w Hf). Qed.

Lemma convert_missing_input_witness :
  convert (lit "gone.odt") None None false (PyStr (lit "newest"))
          (one_file (lit "run.odt") one_table)
  = (inl (ODTFileNotFoundError (lit "gone.odt")),
     mkWorld (files (one_file (lit "run.odt") one_table)) [] 0
             [EvExists (lit "gone.odt")]).
Proof.
  apply (convert_missing_input (one_file (lit "run.odt") one_table)
           (lit "gone.odt") None None false (PyStr (lit "newest"))).
  reflexivity.
Defined.

(** X14: under the behaviour [raw] (or [3]), when the output path does not
    name the input file, [convert] returns exactly when the output file can
    be opened for writing, and when it returns the output file holds what
    every line of the input gives, in order, table after table (a
    [# Columns:] line of each table included); what the output file held
    before is gone. *)
Theorem convert_raw_whole_file (w : world) (odt : str)
    (co su : option str) (ku : bool) (pb : pyval) (content : str) :
  is_raw pb = true ->
  files w odt = Some content ->
  node (files w) odt <> node (files w) (output_path odt co su) ->
  fst (convert odt co su ku pb w)
  = (if writable (files w) (node (files w) (output_path odt co su))
     then inr tt
     else inl (OSError (output_path odt co su)))
  /\ (fst (convert odt co su ku pb w) = inr tt ->
      files (snd (convert odt co su ku pb w)) (output_path odt co su)
      = Some (concat (converted ku (text_lines content)))).
Proof.
  intros Hraw Hf Hne.
  assert (Hm : fst (parsing_mode pb (count_table_starts (text_lines content))
                      w) = inr (Some true)).
  { rewrite parsing_mode_cases, (is_raw_not_new pb Hraw),
      (is_raw_not_fail pb Hraw), Hraw. reflexivity. }
  destruct (writable (files w) (node (files w) (output_path odt co su)))
    eqn:Hw.
  - destruct (convert_success odt co su ku true pb w w content Hf Hm Hw)
      as (w' & Hrun & Hfo & _).
    rewrite Hrun. cbn [fst snd].
    apply str_eqb_neq in Hne. rewrite Hne, emitted_raw in Hfo.
    split; [reflexivity|]. intros _. exact Hfo.
  - rewrite (convert_unwritable odt co su ku true pb w w content Hf Hm Hw).
    cbn [fst]. split; [reflexivity|discriminate].
Qed.

Lemma convert_raw_whole_file_witness :
  files (snd (convert (lit "run.odt") (Some (lit "out")) None false
                (PyInt 3) (one_file (lit "run.odt") two_tables)))
        (output_path (lit "run.odt") (Some (lit "out")) None)
  = Some (concat (converted false (text_lines two_tables))).
Proof.
  assert (Hne : node (files (one_file (lit "run.odt") two_tables))
                     (lit "run.odt")
                <> node (files (one_file (lit "run.odt") two_tables))
                        (output_path (lit "run.odt") (Some (lit "out")) None))
    by (vm_compute; discriminate).
  destruct (convert_raw_whole_file
              (one_file (lit "run.odt") two_tables) (lit "run.odt")
              (Some (lit "out")) None false (PyInt 3) two_tables
              eq_refl eq_refl Hne)
    as [_ H].
  apply H. vm_compute. reflexivity.
Defined.

(** X15: the spellings of a behaviour are interchangeable: two values that
    [convert] recognizes as the same behaviour ([1], ['1'] and ['new'], and
    so on) give the same result and the same world. *)
Theorem convert_behaviour_spellings (w : world) (odt : str)
    (co su : option str) (ku : bool) (a b : pyval) :
  is_new a = is_new b -> is_fail a = is_fail b -> is_raw a = is_raw b ->
  is_new a || is_fail a || is_raw a = true ->
  convert odt co su ku a w = convert odt co su ku b w.
Proof.
  intros Hn Hfl Hr Hrec. destruct (files w odt) as [content|] eqn:Hf.
  - rewrite (convert_prefix odt co su ku a w content Hf).
    rewrite (convert_prefix odt co su ku b w content Hf).
    unfold bind at 1 3.
    rewrite (parsing_mode_pure a _ (prescanned odt w) w).
    rewrite (parsing_mode_pure b _ (prescanned odt w) w).
    rewrite !parsing_mode_cases, <- Hn, <- Hfl, <- Hr.
    destruct (is_new a); [reflexivity|].
    destruct (is_fail a); [reflexivity|].
    destruct (is_raw a); [reflexivity|discriminate].
  - rewrite !convert_not_found by exact Hf. reflexivity.
Qed.

Lemma convert_behaviour_spellings_witness :
  convert (lit "run.odt") None None true (PyInt 1)
          (one_file (lit "run.odt") two_tables)
  = convert (lit "run.odt") None None true (PyStr (lit "new"))
            (one_file (lit "run.odt") two_tables).
Proof.
  apply (convert_behaviour_spellings
           (one_file (lit "run.odt") two_tables) (lit "run.odt") None None
           true (PyInt 1) (PyStr (lit "new")));
    reflexivity.
Defined.

End Outcomes.

Section Resources.

Import Spec Examples.

Lemma filter_fresh (n k : nat) (hs : list (nat * path)) :
  Forall (fun e => fst e < n) hs -> n <= k ->
  filter (fun e => negb (fst e =? k)) hs = hs.
Proof.
  intros H Hk. induction H as [|e hs He Hhs IH]; [reflexivity|].
  cbn [filter]. replace (fst e =? k) with false
    by (symmetry; apply Nat.eqb_neq; lia).
  cbn [negb]. rewrite IH. reflexivity.
Qed.

(** X16: when [convert] returns normally, every file object it opened is
    closed again: the table of open file objects is the one the call
    started with (in a world whose open file objects all have identifiers
    below the next fresh one). *)
Theorem convert_returns_with_handles_closed (w : world) (odt : str)
    (co su : option str) (ku : bool) (pb : pyval) :
  Forall (fun e => fst e < next_handle w) (handles w) ->
  fst (convert odt co su ku pb w) = inr tt ->
  handles (snd (convert odt co su ku pb w)) = handles w.
Proof.
  intros Hwf Hret. destruct (files w odt) as [content|] eqn:Hf.
  - destruct (parsing_mode_outcome pb
                (count_table_starts (text_lines content)) w)
      as [[raw Hm]|[Hm|[HT Hm]]].
    + destruct (writable (files w) (node (files w) (output_path odt co su)))
        eqn:Hw.
      * clear Hret.
        rewrite (convert_prefix odt co su ku pb w content Hf).
        unfold bind at 1.
        rewrite (parsing_mode_pure pb _ (prescanned odt w) w), Hm.
        unfold bind at 1.
        destruct (main_pass_run (output_path odt co su) odt
                    (S (next_handle w))
                    (count_table_starts (text_lines content)) ku raw
                    (prescanned odt w))
          as (w1 & Hrun & _ & _ & _ & Hh & _).
        { cbn [prescanned handles handle_path]. rewrite Nat.eqb_refl.
          reflexivity. }
        { cbn [prescanned next_handle]. lia. }
        { exact Hw. }
        rewrite Hrun. unfold close. cbn [snd handles]. rewrite Hh.
        cbn [prescanned handles next_handle].
        rewrite (filter_fresh (next_handle w) (next_handle w) (handles w) Hwf)
          by lia.
        cbn [filter fst].
        replace (S (next_handle w) =? S (S (next_handle w))) with false
          by (symmetry; apply Nat.eqb_neq; lia).
        cbn [negb filter fst].
        replace (S (next_handle w) =? S (S (S (next_handle w)))) with false
          by (symmetry; apply Nat.eqb_neq; lia).
        cbn [negb filter fst]. rewrite Nat.eqb_refl. cbn [negb].
        rewrite !(filter_fresh (next_handle w) _ (handles w) Hwf) by lia.
        reflexivity.
      * rewrite (convert_unwritable odt co su ku raw pb w w content Hf Hm Hw)
          in Hret. discriminate.
    + rewrite (convert_policy_error odt co su ku pb w w content _ Hf Hm)
        in Hret. discriminate.
    + rewrite (convert_policy_error odt co su ku pb w w content _ Hf Hm)
        in Hret. discriminate.
  - rewrite (convert_not_found odt co su ku pb w Hf) in Hret. discriminate.
Qed.

Lemma convert_returns_with_handles_closed_witness :
  handles (snd (convert (lit "run.odt") None None true (PyStr (lit "raw"))
                  (mkWorld (files (one_file (lit "run.odt") two_tables))
                           [(4, lit "log.txt")] 7 [])))
  = [(4, lit "log.txt")].
Proof.
  apply (convert_returns_with_handles_closed
           (mkWorld (files (one_file (lit "run.odt") two_tables))
                    [(4, lit "log.txt")] 7 [])
           (lit "run.odt") None None true (PyStr (lit "raw"))).
  - repeat constructor.
  - vm_compute. reflexivity.
Defined.

Lemma emitted_without_units (raw : bool) (T : nat) (ls : list str) :
  Forall (fun l => startswith (lit "# Units:") (strip l) = false) ls ->
  forall enc, emitted raw T true enc ls = emitted raw T false enc ls.
Proof.
  induction 1 as [|l ls Hl Hls IH]; intros enc; [reflexivity|].
  cbn [emitted]. rewrite IH, !line_output_by_prefix, Hl. reflexivity.
Qed.

(** X17: on an input with no [# Units:] line, [keep_unit] has no effect on
    any file: with the flag set or not, [convert] ends the same way and
    leaves every file with the same text. *)
Theorem convert_keep_unit_without_units (w : world) (odt : str)
    (co su : option str) (pb : pyval) (content : str) (p : path) :
  files w odt = Some content ->
  Forall (fun l => startswith (lit "# Units:") (strip l) = false)
         (text_lines content) ->
  fst (convert odt co su true pb w) = fst (convert odt co su false pb w)
  /\ files (snd (convert odt co su true pb w)) p
     = files (snd (convert odt co su false pb w)) p.
Proof.
  intros Hf Hnu.
  destruct (parsing_mode_outcome pb
              (count_table_starts (text_lines content)) w)
    as [[raw Hm]|[Hm|[HT Hm]]].
  - destruct (writable (files w) (node (files w) (output_path odt co su)))
      eqn:Hw.
    + destruct (convert_success odt co su true raw pb w w content Hf Hm Hw)
        as (w1 & Hok1 & Hfo1 & Hnd1 & Hother1 & _).
      destruct (convert_success odt co su false raw pb w w content Hf Hm Hw)
        as (w2 & Hok2 & Hfo2 & Hnd2 & Hother2 & _).
      rewrite Hok1, Hok2. cbn [fst snd]. split; [reflexivity|].
      destruct (list_eq_dec ascii_dec (node (files w) p)
                  (node (files w) (output_path odt co su))) as [Hp|Hp].
      * assert (H1 : files w1 p = files w1 (output_path odt co su))
          by (unfold lookup; rewrite Hnd1, Hp; reflexivity).
        assert (H2 : files w2 p = files w2 (output_path odt co su))
          by (unfold lookup; rewrite Hnd2, Hp; reflexivity).
        rewrite H1, H2, Hfo1, Hfo2.
        destruct (str_eqb (node (files w) odt)
                    (node (files w) (output_path odt co su)));
          [reflexivity|].
        rewrite (emitted_without_units raw _ _ Hnu). reflexivity.
      * rewrite (lookup_elsewhere (files w) (files w1)
                   (output_path odt co su) p Hnd1 Hother1 Hp).
        rewrite (lookup_elsewhere (files w) (files w2)
                   (output_path odt co su) p Hnd2 Hother2 Hp).
        reflexivity.
    + rewrite !(convert_unwritable odt co su _ raw pb w w content Hf Hm Hw).
      split; reflexivity.
  - rewrite !(convert_policy_error odt co su _ pb w w content _ Hf Hm).
    split; reflexivity.
  - rewrite !(convert_policy_error odt co su _ pb w w content _ Hf Hm).
    split; reflexivity.
Qed.

Lemma convert_keep_unit_without_units_witness :
  fst (convert (lit "run.odt") None None true (PyInt 1)
         (one_file (lit "run.odt") row_before_marker))
  = fst (convert (lit "run.odt") None None false (PyInt 1)
           (one_file (lit "run.odt") row_before_marker))
  /\ files (snd (convert (lit "run.odt") None None true (PyInt 1)
                   (one_file (lit "run.odt") row_before_marker)))
           (lit "run.csv")
     = files (snd (convert (lit "run.odt") None None false (PyInt 1)
                     (one_file (lit "run.odt") row_before_marker)))
             (lit "run.csv").
Proof.
  apply (convert_keep_unit_without_units
           (one_file (lit "run.odt") row_before_marker) (lit "run.odt")
           None None (PyInt 1) row_before_marker (lit "run.csv")).
  - reflexivity.
  - vm_compute. repeat constructor.
Defined.

End Resources.

Section Shapes.

Import Spec.

Lemma join_quoted_ends (t : str) (ts : list str) :
  exists x, join (lit ",") (map quoted (t :: ts)) = x ++ dquote.
Proof.
  revert t. induction ts as [|t' ts IH]; intros t.
  - exists (dquote ++ t). cbn [map join]. unfold quoted.
    rewrite app_assoc. reflexivity.
  - destruct (IH t') as [x Hx]. cbn [map join] in *.
    exists (quoted t ++ lit "," ++ x). rewrite Hx, !app_assoc. reflexivity.
Qed.

(** X18: the text [tokenize_header] returns is empty or begins and ends
    with a double quote: dropping the last character removes exactly the
    comma after the last token, and nothing when there is no token. *)
Theorem tokenize_header_quoted_ends (s : str) :
  tokenize_header s = []
  \/ exists x, tokenize_header s = dquote ++ x
               /\ exists y, tokenize_header s = y ++ dquote.
Proof.
  rewrite tokenize_header_tokens.
  destruct (flat_map piece_tokens_written
              (remove_empty (split "{" (strip (collapse_spaces s)))))
    as [|t ts]; [left; reflexivity|right].
  destruct (join_quoted_ends t ts) as [y Hy].
  destruct ts as [|t' ts'].
  - exists (t ++ dquote). split; [reflexivity|]. exists y. exact Hy.
  - exists (t ++ dquote ++ lit "," ++ join (lit ",") (map quoted (t' :: ts'))).
    split; [|exists y; exact Hy].
    cbn [map join]. unfold quoted. rewrite <- !app_assoc. reflexivity.
Qed.

Lemma split_commas_for_spaces (d : str) :
  Forall (fun c => c <> ","%char) d ->
  split "," (map comma_for_space d) = split sp d.
Proof.
  induction 1 as [|c t Hc Ht IH]; [reflexivity|].
  cbn [map split].
  assert (Hcc : comma_for_space c = if Ascii.eqb c sp then ","%char else c)
    by reflexivity.
  rewrite Hcc. destruct (Ascii.eqb c sp) eqn:E.
  - rewrite Ascii.eqb_refl, IH. reflexivity.
  - apply Ascii.eqb_neq in Hc. rewrite Hc, IH. reflexivity.
Qed.

(** X19: for a line with no comma of its own, the comma-separated fields of
    what [space2comma] returns are exactly the space-separated words of the
    cleaned line, in order: no field is lost, merged or added. *)
Theorem space2comma_fields (s : str) :
  Forall (fun c => c <> ","%char) s ->
  split "," (space2comma s) = split sp (despacifier s).
Proof.
  intros H. unfold space2comma. rewrite replace_space_comma.
  apply split_commas_for_spaces.
  rewrite despacifier_collapse. apply strip_Forall, collapse_Forall, H.
Qed.

Lemma space2comma_fields_witness :
  split "," (space2comma (lit "  1.5e-9   -2 3 "))
  = split sp (despacifier (lit "  1.5e-9   -2 3 ")).
Proof.
  apply space2comma_fields. repeat constructor; discriminate.
Defined.

End Shapes.
